(** * PSQL_connector.py: the PostgreSQL session wrapper [PSQLConnector]

    A shallow embedding of [src/PSQL_connector.py].  The class is glue
    around two external libraries (psycopg2 and pandas), so the embedding
    has three layers:

    - the Python objects the code touches: exceptions with their class
      hierarchy, wrapper instances living in a heap and addressed by
      reference, driver connections with their [closed] attribute;
    - the outside world: standard output, the record of calls made to the
      driver and to pandas, and a [Driver] that decides how each of these
      calls ends;
    - the methods of the class, written in a state-and-exception monad in
      the order the source executes them. *)

From stdpp Require Import base option list strings pretty.
From Stdlib Require Import ZArith Lia.

Open Scope string_scope.
Open Scope list_scope.
Open Scope Z_scope.

(** ** Python exceptions *)

(** The exception classes that matter to the two [except] clauses of the
    source, with the ancestors they have in Python, psycopg2 and pandas. *)
Inductive exn_class : Type :=
  | BaseException
  | KeyboardInterrupt
  | SystemExit
  | Exception
  | TypeError
  | AttributeError
  | Psycopg2Error
  | InterfaceError
  | DatabaseError
  | OperationalError
  | ProgrammingError
  | PandasDatabaseError.

#[global] Instance exn_class_eq_dec : EqDecision exn_class.
Proof. solve_decision. Defined.

(** The direct base class ([None] for the root). *)
Definition base_class (c : exn_class) : option exn_class :=
  match c with
  | BaseException => None
  | KeyboardInterrupt => Some BaseException
  | SystemExit => Some BaseException
  | Exception => Some BaseException
  | TypeError => Some Exception
  | AttributeError => Some Exception
  | Psycopg2Error => Some Exception
  | InterfaceError => Some Psycopg2Error
  | DatabaseError => Some Psycopg2Error
  | OperationalError => Some DatabaseError
  | ProgrammingError => Some DatabaseError
  | PandasDatabaseError => Some Exception
  end.

(** [issubclass_upto k c d]: [d] is reached from [c] in at most [k] steps
    up the hierarchy. *)
Fixpoint issubclass_upto (k : nat) (c d : exn_class) : bool :=
  if bool_decide (c = d) then true
  else match k with
       | O => false
       | S k' => match base_class c with
                 | Some b => issubclass_upto k' b d
                 | None => false
                 end
       end.

(** The hierarchy above has depth four. *)
Definition issubclass (c d : exn_class) : bool := issubclass_upto 4 c d.

(** An exception instance: its class and the text [str(e)] gives. *)
Record exn : Type := mk_exn { exn_type : exn_class; exn_str : string }.

Definition isinstance (e : exn) (c : exn_class) : bool :=
  issubclass (exn_type e) c.

(** ** Data *)

(** References to wrapper instances and to connection objects. *)
Abbreviation loc := nat (only parsing).
Abbreviation handle := nat (only parsing).

(** A wrapper instance, with the attributes [__init__] creates. *)
Record PSQLConnector : Type := mk_PSQLConnector {
  host : string;
  port : Z;
  db_name : string;
  username : string;
  password : string;
  schema : option string;
  connection : option handle
}.

Definition set_connection (c : option handle) (o : PSQLConnector) : PSQLConnector :=
  {| host := host o; port := port o; db_name := db_name o;
     username := username o; password := password o; schema := schema o;
     connection := c |}.

(** A pandas DataFrame, as far as the wrapper can tell one from another. *)
Inductive cell : Type :=
  | CNull
  | CInt (z : Z)
  | CStr (s : string).

Record DataFrame : Type := mk_DataFrame {
  columns : list string;
  rows : list (list cell)
}.

(** [pd.DataFrame()] *)
Definition empty_DataFrame : DataFrame := {| columns := []; rows := [] |}.

(** ** The world *)

(** The calls the wrapper makes to psycopg2 and pandas. *)
Inductive event : Type :=
  | EvConnect (h : string) (p : Z) (dbname user pw : string)
  | EvCursor (c : handle)
  | EvExecute (c : handle) (sql : string)
  | EvCursorClose (c : handle)
  | EvClose (c : handle)
  | EvReadSql (sql : string) (con : option handle).

(** [objs]: the wrapper instances, by reference.  [conns]: the connection
    objects psycopg2 has handed out, each with its integer attribute
    [closed] (0 while the connection is open, 1 once it has been closed,
    2 once it has been found lost).  [stdout]: the lines
    printed.  [trace]: the calls made so far. *)
Record World : Type := mk_World {
  objs : list PSQLConnector;
  conns : list Z;
  stdout : list string;
  trace : list event
}.

Definition set_objs (f : list PSQLConnector → list PSQLConnector) (w : World) : World :=
  {| objs := f (objs w); conns := conns w; stdout := stdout w; trace := trace w |}.
Definition set_conns (f : list Z → list Z) (w : World) : World :=
  {| objs := objs w; conns := f (conns w); stdout := stdout w; trace := trace w |}.
Definition set_stdout (f : list string → list string) (w : World) : World :=
  {| objs := objs w; conns := conns w; stdout := f (stdout w); trace := trace w |}.
Definition set_trace (f : list event → list event) (w : World) : World :=
  {| objs := objs w; conns := conns w; stdout := stdout w; trace := f (trace w) |}.

(** How the calls to the outside end.  Each function sees the calls made
    so far, the one being answered last, so the answer may depend on the
    arguments and on everything that happened before: [psycopg2.connect]
    either raises or yields a new open connection, [connection.cursor()]
    and [cursor.execute] either raise or return, and [pd.read_sql] either
    raises or returns a table.  [drv_lost] tells whether the failure
    answered at this point is a lost connection, which psycopg2 records on
    the connection object. *)
Record Driver : Type := mk_Driver {
  drv_connect : list event → option exn;
  drv_cursor : list event → option exn;
  drv_execute : list event → option exn;
  drv_read_sql : list event → exn + DataFrame;
  drv_lost : list event → bool
}.

(** ** The monad: state passing with exceptions *)

Inductive Result (A : Type) : Type :=
  | Ok (a : A)
  | Raise (e : exn).
Arguments Ok {A} a.
Arguments Raise {A} e.

Definition M (A : Type) : Type := World → Result A * World.

Definition ret {A} (a : A) : M A := fun w => (Ok a, w).

Definition raise {A} (e : exn) : M A := fun w => (Raise e, w).

Definition bind {A B} (m : M A) (k : A → M B) : M B :=
  fun w => match m w with
           | (Ok a, w') => k a w'
           | (Raise e, w') => (Raise e, w')
           end.

Notation "x <- m ;; k" := (bind m (fun x => k))
  (at level 100, m at next level, right associativity).
Notation "m ;;; k" := (bind m (fun _ => k))
  (at level 100, right associativity).

(** [try: body except C as e: handler e] *)
Definition try_except {A} (body : M A) (C : exn_class) (handler : exn → M A) : M A :=
  fun w => match body w with
           | (Ok a, w') => (Ok a, w')
           | (Raise e, w') =>
               if isinstance e C then handler e w' else (Raise e, w')
           end.

(** [try: body finally: final] *)
Definition try_finally {A} (body : M A) (final : M unit) : M A :=
  fun w => match body w with
           | (Ok a, w') => (final ;;; ret a) w'
           | (Raise e, w') => (final ;;; raise e) w'
           end.

(** [print(s)] *)
Definition print (s : string) : M unit :=
  fun w => (Ok (), set_stdout (λ out, out ++ [s]) w).

Definition emit (ev : event) : M unit :=
  fun w => (Ok (), set_trace (λ tr, tr ++ [ev]) w).

Definition history : M (list event) := fun w => (Ok (trace w), w).

(** ** Attribute access *)

(** Reading an attribute of [self].  A reference that is not a wrapper
    instance has no such attribute, which is Python's [AttributeError]. *)
Definition no_attribute : exn :=
  mk_exn AttributeError "object has no such attribute".

Definition getattr {A} (self : loc) (f : PSQLConnector → A) : M A :=
  fun w => match objs w !! self with
           | Some o => (Ok (f o), w)
           | None => (Raise no_attribute, w)
           end.

(** [self.connection = c] *)
Definition setattr_connection (self : loc) (c : option handle) : M unit :=
  fun w => match objs w !! self with
           | Some o => (Ok (), set_objs (λ os, <[self := set_connection c o]> os) w)
           | None => (Raise no_attribute, w)
           end.

(** ** psycopg2 and pandas *)

(** [psycopg2.connect(host=, port=, dbname=, user=, password=)] *)
Definition psycopg2_connect (drv : Driver) (h : string) (p : Z) (dbname user pw : string)
    : M handle :=
  emit (EvConnect h p dbname user pw) ;;;
  tr <- history ;;
  match drv_connect drv tr with
  | Some e => raise e
  | None => fun w => (Ok (length (conns w)), set_conns (λ cs, cs ++ [0]) w)
  end.

(** [con.closed]; something that is not a connection has no such attribute. *)
Definition conn_closed (c : handle) : M Z :=
  fun w => match conns w !! c with
           | Some z => (Ok z, w)
           | None => (Raise no_attribute, w)
           end.

(** [con.close()] *)
Definition conn_close (c : handle) : M unit :=
  emit (EvClose c) ;;;
  fun w => (Ok (), set_conns (λ cs, <[c := 1]> cs) w).

(** What psycopg2 does to a connection it finds lost: an open connection
    gets [closed = 2]; one that is closed already stays as it is. *)
Definition break_connection (c : handle) (cs : list Z) : list Z :=
  match cs !! c with
  | Some z => if Z.eqb z 0 then <[c := 2]> cs else cs
  | None => cs
  end.

(** The world after a call through [con] has failed with the calls [tr]
    made. *)
Definition lost_on (drv : Driver) (tr : list event) (con : option handle) (w : World)
    : World :=
  if drv_lost drv tr then
    match con with
    | Some c => set_conns (break_connection c) w
    | None => w
    end
  else w.

(** A call through [con] raises [e]. *)
Definition fail_on {A} (drv : Driver) (tr : list event) (con : option handle) (e : exn)
    : M A :=
  fun w => (Raise e, lost_on drv tr con w).

(** [con.cursor()] *)
Definition conn_cursor (drv : Driver) (c : handle) : M handle :=
  emit (EvCursor c) ;;;
  tr <- history ;;
  match drv_cursor drv tr with
  | Some e => fail_on drv tr (Some c) e
  | None => ret c
  end.

(** [cursor.execute(sql)], for a cursor of connection [c] *)
Definition cursor_execute (drv : Driver) (c : handle) (sql : string) : M unit :=
  emit (EvExecute c sql) ;;;
  tr <- history ;;
  match drv_execute drv tr with
  | Some e => fail_on drv tr (Some c) e
  | None => ret ()
  end.

(** [with con.cursor() as cursor: body cursor]: the cursor is closed on the
    way out whether the body raised or not, and an exception goes on. *)
Definition with_cursor {A} (drv : Driver) (c : handle) (body : handle → M A) : M A :=
  cur <- conn_cursor drv c ;;
  try_finally (body cur) (emit (EvCursorClose cur)).

(** [pd.read_sql(query, con)] *)
Definition pd_read_sql (drv : Driver) (query : string) (con : option handle) : M DataFrame :=
  emit (EvReadSql query con) ;;;
  tr <- history ;;
  match drv_read_sql drv tr with
  | inl e => fail_on drv tr con e
  | inr df => ret df
  end.

(** ** Truth values *)

(** [if self.schema:] on an [Optional[str]]: [None] and the empty string
    are false. *)
Definition truthy_schema (s : option string) : bool :=
  match s with
  | None => false
  | Some EmptyString => false
  | Some (String _ _) => true
  end.

(** [not con.closed] on the integer attribute. *)
Definition not_closed (z : Z) : bool := Z.eqb z 0.

(** ** The class [PSQLConnector] *)

(** [PSQLConnector(host, port, db_name, username, password, schema)]: a new
    instance is allocated and [__init__] assigns its seven attributes. *)
Definition __init__ (host_ : string) (port_ : Z) (db_name_ username_ password_ : string)
    (schema_ : option string) : M loc :=
  fun w =>
    (Ok (length (objs w)),
     set_objs (λ os, os ++ [ {| host := host_; port := port_; db_name := db_name_;
                               username := username_; password := password_;
                               schema := schema_; connection := None |} ]) w).

Definition connect_ok_msg : string := "Successfully connected to PostgreSQL database".
Definition connect_err_msg (e : exn) : string :=
  "Error connecting to PostgreSQL database: " +:+ exn_str e.
Definition search_path_stmt (s : string) : string := "SET search_path TO " +:+ s.

(** [{self.schema}] in an f-string: [str] of an [Optional[str]]. *)
Definition str_schema (s : option string) : string :=
  match s with
  | Some x => x
  | None => "None"
  end.

(** The body of the [try] in [connect]. *)
Definition connect_body (drv : Driver) (self : loc) : M unit :=
  h <- getattr self host ;;
  p <- getattr self port ;;
  d <- getattr self db_name ;;
  u <- getattr self username ;;
  pw <- getattr self password ;;
  c <- psycopg2_connect drv h p d u pw ;;
  setattr_connection self (Some c) ;;;
  s <- getattr self schema ;;
  (if truthy_schema s then
     oc <- getattr self connection ;;
     match oc with
     | Some c' =>
         with_cursor drv c'
           (λ cur, s' <- getattr self schema ;;
                   cursor_execute drv cur (search_path_stmt (str_schema s')))
     | None => raise no_attribute
     end
   else ret ()) ;;;
  print connect_ok_msg.

Definition connect (drv : Driver) (self : loc) : M unit :=
  try_except (connect_body drv self) OperationalError
    (λ e, print (connect_err_msg e) ;;; raise e).

Definition disconnect_msg : string := "PostgreSQL connection closed".

(** [self.connection and not self.connection.closed]: a connection object
    is always true, so the left operand is false only for [None]. *)
Definition disconnect (self : loc) : M unit :=
  oc <- getattr self connection ;;
  match oc with
  | None => ret ()
  | Some c =>
      z <- conn_closed c ;;
      if not_closed z then
        conn_close c ;;; print disconnect_msg
      else ret ()
  end.

Definition query_err_msg (e : exn) : string := "Error executing query: " +:+ exn_str e.

Definition _execute_query (drv : Driver) (self : loc) (query : string) : M DataFrame :=
  try_except
    (oc <- getattr self connection ;; pd_read_sql drv query oc)
    Exception
    (λ e, print (query_err_msg e) ;;; ret empty_DataFrame).

Definition get_all_dishes (drv : Driver) (self : loc) : M DataFrame :=
  let query := "SELECT * FROM restaurant.dish" in
  _execute_query drv self query.

Definition get_distinct_dishes (drv : Driver) (self : loc) : M DataFrame :=
  let query := "SELECT distinct dish_name, id, category_id FROM restaurant.dish" in
  _execute_query drv self query.

Definition get_all_dish_categories (drv : Driver) (self : loc) : M DataFrame :=
  let query := "SELECT * FROM restaurant.dish_category" in
  _execute_query drv self query.

Definition execute_query (drv : Driver) (self : loc) (query : string) : M DataFrame :=
  _execute_query drv self query.

(** The double quote character, for the quoted column name. *)
Definition dquote : string := String (Ascii.ascii_of_nat 34) EmptyString.

Definition receipt_items_prefix : string :=
  "SELECT * FROM iikoconnector.iiko_receiptitems ORDER BY " +:+ dquote
  +:+ "ItemSaleEvent_Id" +:+ dquote +:+ " ASC LIMIT ".

(** The default of the keyword argument [first_n_rows]. *)
Definition first_n_rows_default : Z := 1000.

(** [get_all_iiko_receipt_items(first_n_rows=1000)]; [None] is the call
    without the argument.  [pretty] is the decimal notation of an integer,
    with a minus sign for a negative one, as [str] and an f-string give. *)
Definition get_all_iiko_receipt_items (drv : Driver) (self : loc) (arg : option Z)
    : M DataFrame :=
  let first_n_rows := default first_n_rows_default arg in
  let first_n_rows := if first_n_rows >? 50000 then 50000 else first_n_rows in
  let query := receipt_items_prefix +:+ pretty first_n_rows in
  _execute_query drv self query.

Definition __enter__ (drv : Driver) (self : loc) : M loc :=
  connect drv self ;;;
  ret self.

(** [exc] stands for the three arguments [exc_type, exc_val, exc_tb]:
    [None] when the block ended normally.  The method returns [None]. *)
Definition __exit__ (self : loc) (exc : option exn) : M unit :=
  disconnect self.

(** ** The [with] statement *)

(** [with mgr as v: body v], for a manager whose [__exit__] returns [None]:
    a false value, so an exception of the body is raised again after
    [__exit__] has run.  An exception of [__enter__] ends the statement
    before the body and without [__exit__]. *)
Definition with_stmt {A} (drv : Driver) (mgr : loc) (body : loc → M A) : M A :=
  v <- __enter__ drv mgr ;;
  fun w => match body v w with
           | (Ok a, w') => (__exit__ mgr None ;;; ret a) w'
           | (Raise e, w') => (__exit__ mgr (Some e) ;;; raise e) w'
           end.

(** ** Observations on a world *)

(** [self] is a wrapper instance whose [connection] attribute is [None] or
    a connection object of the driver. *)
Definition is_instance (w : World) (self : loc) : bool :=
  match objs w !! self with
  | Some o =>
      match connection o with
      | None => true
      | Some c => match conns w !! c with Some _ => true | None => false end
      end
  | None => false
  end.

(** The wrapper holds a connection that is open. *)
Definition session_open (w : World) (self : loc) : bool :=
  match objs w !! self with
  | Some o =>
      match connection o with
      | None => false
      | Some c => match conns w !! c with Some z => not_closed z | None => false end
      end
  | None => false
  end.

(** The session handle is absent. *)
Definition session_absent (w : World) (self : loc) : bool :=
  match objs w !! self with
  | Some o => match connection o with None => true | Some _ => false end
  | None => false
  end.

(** The wrapper holds a connection that has been closed. *)
Definition session_closed (w : World) (self : loc) : bool :=
  match objs w !! self with
  | Some o =>
      match connection o with
      | None => false
      | Some c => match conns w !! c with Some z => negb (not_closed z) | None => false end
      end
  | None => false
  end.

(** [n] calls of [m] in a row. *)
Fixpoint times (n : nat) (m : M unit) : M unit :=
  match n with
  | O => ret ()
  | S k => m ;;; times k m
  end.

(** The five public query methods, as a caller can invoke them. *)
Inductive query_call : Type :=
  | CallAllDishes
  | CallDistinctDishes
  | CallAllDishCategories
  | CallExecuteQuery (query : string)
  | CallReceiptItems (arg : option Z).

Definition run_query (drv : Driver) (self : loc) (c : query_call) : M DataFrame :=
  match c with
  | CallAllDishes => get_all_dishes drv self
  | CallDistinctDishes => get_distinct_dishes drv self
  | CallAllDishCategories => get_all_dish_categories drv self
  | CallExecuteQuery q => execute_query drv self q
  | CallReceiptItems a => get_all_iiko_receipt_items drv self a
  end.

(** A caller's use of one wrapper: any of its methods, in any order.  An
    exception a call raises is caught by the caller, who goes on. *)
Inductive op : Type :=
  | OpConnect
  | OpDisconnect
  | OpQuery (c : query_call)
  | OpEnter
  | OpExit (exc : option exn).

Definition run_op (drv : Driver) (self : loc) (o : op) (w : World) : World :=
  match o with
  | OpConnect => (connect drv self w).2
  | OpDisconnect => (disconnect self w).2
  | OpQuery c => (run_query drv self c w).2
  | OpEnter => (__enter__ drv self w).2
  | OpExit exc => (__exit__ self exc w).2
  end.

Definition run_ops (drv : Driver) (self : loc) (os : list op) (w : World) : World :=
  foldl (λ w' o, run_op drv self o w') w os.

(** ** Worlds and drivers for the examples *)

Definition empty_world : World :=
  {| objs := []; conns := []; stdout := []; trace := [] |}.

(** Every call succeeds; every query returns a table of one row. *)
Definition one_row : DataFrame :=
  {| columns := ["dish_name"; "id"; "category_id"]; rows := [[CStr "borscht"; CInt 1; CInt 2]] |}.

Definition good_driver : Driver :=
  {| drv_connect := λ _, None; drv_cursor := λ _, None;
     drv_execute := λ _, None; drv_read_sql := λ _, inr one_row;
     drv_lost := λ _, false |}.



(** The connection is opened, then lost before the first statement: the
    driver finds it out and marks the connection. *)
Definition lost : exn := mk_exn OperationalError "server closed the connection unexpectedly".

Definition lossy_driver : Driver :=
  {| drv_connect := λ _, None; drv_cursor := λ _, None;
     drv_execute := λ _, Some lost; drv_read_sql := λ _, inl lost;
     drv_lost := λ _, true |}.

(** The server refuses the statement setting the schema, a name in two
    words, and stays connected. *)
Definition refused : exn := mk_exn ProgrammingError "syntax error at or near menu".

Definition refusing_driver : Driver :=
  {| drv_connect := λ _, None; drv_cursor := λ _, None;
     drv_execute := λ _, Some refused; drv_read_sql := λ _, inr one_row;
     drv_lost := λ _, false |}.

(** Every query is rejected. *)
Definition syntax_error : exn := mk_exn PandasDatabaseError "syntax error at or near SELEC".

Definition rejecting_driver : Driver :=
  {| drv_connect := λ _, None; drv_cursor := λ _, None;
     drv_execute := λ _, None; drv_read_sql := λ _, inl syntax_error;
     drv_lost := λ _, false |}.

(** A wrapper on an empty world, without and with a default schema. *)
Definition fresh_plain : World :=
  (__init__ "localhost" 5432 "menu" "chef" "secret" None empty_world).2.

Definition fresh_schema : World :=
  (__init__ "localhost" 5432 "menu" "chef" "secret" (Some "restaurant") empty_world).2.

Definition fresh_two_words : World :=
  (__init__ "localhost" 5432 "menu" "chef" "secret" (Some "daily menu") empty_world).2.

(** ** Names for what the methods print, send and leave behind *)

Definition all_dishes_sql : string := "SELECT * FROM restaurant.dish".
Definition distinct_dishes_sql : string :=
  "SELECT distinct dish_name, id, category_id FROM restaurant.dish".
Definition all_dish_categories_sql : string := "SELECT * FROM restaurant.dish_category".

(** The statement with the keyword in capitals, which is not the one the
    source holds. *)
Definition distinct_dishes_sql_capitals : string :=
  "SELECT DISTINCT dish_name, id, category_id FROM restaurant.dish".

(** The handler of [connect] prints for an [OperationalError] only. *)
Definition logged (e : exn) (w : World) : World :=
  if isinstance e OperationalError
  then set_stdout (λ out, out ++ [connect_err_msg e]) w
  else w.

(** The call [connect] makes to open the connection. *)
Definition connect_event (o : PSQLConnector) : event :=
  EvConnect (host o) (port o) (db_name o) (username o) (password o).

(** The world once the driver has opened connection [c] and the wrapper
    has stored it. *)
Definition opened (self : loc) (o : PSQLConnector) (w : World) : World :=
  {| objs := <[self := set_connection (Some (length (conns w))) o]> (objs w);
     conns := conns w ++ [0];
     stdout := stdout w;
     trace := trace w ++ [connect_event o] |}.

(** A connected wrapper on the example world. *)
Definition connected_plain : World := (connect good_driver 0%nat fresh_plain).2.

(** The same wrapper after [connect] and [disconnect]. *)
Definition disconnected_plain : World :=
  run_ops good_driver 0%nat [OpConnect; OpDisconnect] fresh_plain.

(** The connection string is refused before any connection is tried. *)
Definition bad_dsn : exn := mk_exn InterfaceError "invalid connection option".

Definition bad_dsn_driver : Driver :=
  {| drv_connect := λ _, Some bad_dsn; drv_cursor := λ _, None;
     drv_execute := λ _, None; drv_read_sql := λ _, inr one_row;
     drv_lost := λ _, false |}.

(** A body that fails: the query is rejected and the caller's code raises. *)
Definition failing_body (v : nat) : M DataFrame :=
  execute_query rejecting_driver v "SELEC 1" ;;; raise (mk_exn TypeError "no rows").

(** The user interrupts the program while a query runs. *)
Definition interrupt : exn := mk_exn KeyboardInterrupt "interrupted".

Definition interrupted_driver : Driver :=
  {| drv_connect := λ _, None; drv_cursor := λ _, None;
     drv_execute := λ _, None; drv_read_sql := λ _, inl interrupt;
     drv_lost := λ _, false |}.

(** Two wrappers side by side, the second one connected. *)
Definition two_wrappers : World :=
  (connect good_driver 1%nat
     (__init__ "replica" 5433 "menu" "waiter" "hidden" None fresh_plain).2).2.

(** A call made through a cursor of connection [c]. *)
Definition on_cursor_of (c : handle) (ev : event) : bool :=
  match ev with
  | EvCursor c' | EvExecute c' _ | EvCursorClose c' => Nat.eqb c' c
  | _ => false
  end.

(** What holds of the handle of wrapper [self] over its life, [len0] being
    the number of connections there were when it was constructed: the
    handle, when there is one, refers to a connection opened since, whose
    flag is 0 (open), 1 (closed) or 2 (lost). *)
Definition handle_inv (len0 : nat) (w : World) (self : loc) : Prop :=
  (len0 ≤ length (conns w))%nat
  ∧ ∃ o, objs w !! self = Some o
         ∧ ∀ c, connection o = Some c →
                (len0 ≤ c)%nat
                ∧ ∃ z, conns w !! c = Some z ∧ (z = 0 ∨ z = 1 ∨ z = 2).

(** ** Proof steps *)

Ltac step_monad :=
  unfold bind, ret, raise, try_except, try_finally, print, emit, history; simpl.

(** ** Stepping lemmas *)

Lemma getattr_Some {A} (f : PSQLConnector → A) self o w :
  objs w !! self = Some o → getattr self f w = (Ok (f o), w).
Proof. intros H. unfold getattr. by rewrite H. Qed.

Lemma getattr_None {A} (f : PSQLConnector → A) self w :
  objs w !! self = None → getattr self f w = (Raise no_attribute, w).
Proof. intros H. unfold getattr. by rewrite H. Qed.

(** Every [OperationalError] is an [Exception]. *)
Lemma OperationalError_is_Exception e :
  isinstance e OperationalError = true → isinstance e Exception = true.
Proof. destruct e as [[] s]; by vm_compute. Qed.

(** ** The internal executor *)

(** A lost connection changes the connection's flag and nothing else. *)
Lemma break_connection_length c cs : length (break_connection c cs) = length cs.
Proof.
  unfold break_connection. destruct (cs !! c) as [z|]; [|done].
  destruct (Z.eqb z 0); [|done]. by rewrite length_insert.
Qed.

Lemma break_connection_ne c c' cs :
  c' ≠ c → break_connection c cs !! c' = cs !! c'.
Proof.
  intros Hne. unfold break_connection. destruct (cs !! c) as [z|]; [|done].
  destruct (Z.eqb z 0); [|done]. by apply list_lookup_insert_ne.
Qed.

Lemma break_connection_eq c cs z :
  cs !! c = Some z →
  break_connection c cs !! c = Some (if not_closed z then 2 else z).
Proof.
  intros Hz. unfold break_connection, not_closed. rewrite Hz.
  destruct (Z.eqb z 0); [|done].
  apply list_lookup_insert_eq. by eapply lookup_lt_Some.
Qed.

Lemma break_connection_is_Some c c' cs :
  is_Some (break_connection c cs !! c') ↔ is_Some (cs !! c').
Proof. by rewrite !lookup_lt_is_Some, break_connection_length. Qed.

Lemma lost_on_frame drv tr con w :
  objs (lost_on drv tr con w) = objs w
  ∧ stdout (lost_on drv tr con w) = stdout w
  ∧ trace (lost_on drv tr con w) = trace w
  ∧ (conns (lost_on drv tr con w) = conns w
     ∨ ∃ c, con = Some c ∧ drv_lost drv tr = true
            ∧ conns (lost_on drv tr con w) = break_connection c (conns w)).
Proof.
  unfold lost_on. destruct (drv_lost drv tr); [|by auto].
  destruct con as [c|]; [|by auto]. simpl. repeat split; eauto.
Qed.

Lemma lost_on_stdout drv tr con w : stdout (lost_on drv tr con w) = stdout w.
Proof. apply lost_on_frame. Qed.

Lemma lost_on_objs drv tr con w : objs (lost_on drv tr con w) = objs w.
Proof. apply lost_on_frame. Qed.

(** What one call of the executor does on a wrapper instance. *)
Lemma _execute_query_unfold drv self q o w :
  objs w !! self = Some o →
  _execute_query drv self q w =
    let tr := trace w ++ [EvReadSql q (connection o)] in
    let w1 := set_trace (λ tr, tr ++ [EvReadSql q (connection o)]) w in
    match drv_read_sql drv tr with
    | inr df => (Ok df, w1)
    | inl e =>
        if isinstance e Exception
        then (Ok empty_DataFrame,
              set_stdout (λ out, out ++ [query_err_msg e])
                (lost_on drv tr (connection o) w1))
        else (Raise e, lost_on drv tr (connection o) w1)
    end.
Proof.
  intros Ho. unfold _execute_query, pd_read_sql, fail_on. step_monad.
  rewrite (getattr_Some _ _ _ _ Ho). simpl.
  destruct (drv_read_sql drv _) as [e|df]; simpl; [|done].
  by destruct (isinstance e Exception).
Qed.

(** On a reference that is no instance, nothing is sent to the database. *)
Lemma _execute_query_dangling drv self q w :
  objs w !! self = None →
  _execute_query drv self q w
  = (Ok empty_DataFrame, set_stdout (λ out, out ++ [query_err_msg no_attribute]) w).
Proof.
  intros Ho. unfold _execute_query, pd_read_sql. step_monad.
  by rewrite (getattr_None _ _ _ Ho).
Qed.

(** The executor sends exactly its argument, on the stored handle. *)
Lemma _execute_query_trace drv self q o w :
  objs w !! self = Some o →
  trace (_execute_query drv self q w).2 = trace w ++ [EvReadSql q (connection o)].
Proof.
  intros Ho. rewrite (_execute_query_unfold _ _ _ _ _ Ho). simpl.
  destruct (drv_read_sql drv _) as [e|df]; [|done].
  destruct (isinstance e Exception); simpl;
    by rewrite (proj1 (proj2 (proj2 (lost_on_frame _ _ _ _)))).
Qed.

(** The executor changes no instance, and no connection but, when the
    query fails on a lost connection, the flag of the one it went through. *)
Lemma _execute_query_frame drv self q w :
  objs (_execute_query drv self q w).2 = objs w
  ∧ (conns (_execute_query drv self q w).2 = conns w
     ∨ ∃ o c, objs w !! self = Some o ∧ connection o = Some c
              ∧ conns (_execute_query drv self q w).2 = break_connection c (conns w)).
Proof.
  destruct (objs w !! self) as [o|] eqn:Ho.
  - rewrite (_execute_query_unfold _ _ _ _ _ Ho). simpl.
    destruct (drv_read_sql drv _) as [e|df]; [|by auto].
    destruct (lost_on_frame drv (trace w ++ [EvReadSql q (connection o)]) (connection o)
                (set_trace (λ tr, tr ++ [EvReadSql q (connection o)]) w))
      as (H1 & _ & _ & H4).
    destruct (isinstance e Exception); simpl; (split; [done|]);
      (destruct H4 as [H4|(c & Hc & _ & H4)]; [by left|right; eauto]).
  - rewrite (_execute_query_dangling _ _ _ _ Ho). by auto.
Qed.

(** What the executor lets through is no [Exception]. *)
Lemma _execute_query_no_error drv self q w e w' :
  _execute_query drv self q w = (Raise e, w') → isinstance e Exception = false.
Proof.
  destruct (objs w !! self) as [o|] eqn:Ho.
  - rewrite (_execute_query_unfold _ _ _ _ _ Ho). simpl.
    destruct (drv_read_sql drv _) as [e0|df]; [|done].
    destruct (isinstance e0 Exception) eqn:He; [done|].
    intros [= <- _]. done.
  - by rewrite (_execute_query_dangling _ _ _ _ Ho).
Qed.

Lemma run_query_is_execute drv self c :
  ∃ q, run_query drv self c = _execute_query drv self q.
Proof. destruct c; simpl; eauto. Qed.

(** C1. Whenever running a query raises an error (an instance of
    [Exception], whatever its class), the internal executor and the public
    [execute_query] print the error and return the empty table, with no
    rows and no columns; and no query method ever ends by raising an
    error. *)
Theorem query_errors_are_swallowed drv self o (query : string) w e :
  objs w !! self = Some o →
  drv_read_sql drv (trace w ++ [EvReadSql query (connection o)]) = inl e →
  isinstance e Exception = true →
  let w' := set_stdout (λ out, out ++ [query_err_msg e])
              (lost_on drv (trace w ++ [EvReadSql query (connection o)]) (connection o)
                 (set_trace (λ tr, tr ++ [EvReadSql query (connection o)]) w)) in
  _execute_query drv self query w = (Ok empty_DataFrame, w')
  ∧ execute_query drv self query w = (Ok empty_DataFrame, w')
  ∧ rows empty_DataFrame = [] ∧ columns empty_DataFrame = []
  ∧ ∀ c w0 e0 w1, run_query drv self c w0 = (Raise e0, w1) →
                  isinstance e0 Exception = false.
Proof.
  intros Ho Hraise He w'. unfold execute_query.
  rewrite (_execute_query_unfold _ _ _ _ _ Ho). simpl. rewrite Hraise, He.
  repeat split; try done.
  intros c w0 e0 w1. destruct (run_query_is_execute drv self c) as [q ->].
  apply _execute_query_no_error.
Qed.

Lemma query_errors_are_swallowed_witness :
  _execute_query rejecting_driver 0%nat "SELEC 1" fresh_plain
  = (Ok empty_DataFrame,
     {| objs := objs fresh_plain; conns := [];
        stdout := ["Error executing query: syntax error at or near SELEC"];
        trace := [EvReadSql "SELEC 1" None] |}).
Proof.
  refine (proj1 (query_errors_are_swallowed rejecting_driver 0%nat
             (mk_PSQLConnector "localhost" 5432 "menu" "chef" "secret" None None)
             "SELEC 1" fresh_plain syntax_error _ _ _));
    reflexivity.
Defined.

(** ** Construction *)

(** C8. Construction stores the six arguments as they are, leaves the
    session handle absent, and does nothing else: no existing instance
    changes, no connection is opened, nothing is printed and no call to the
    driver or to pandas is made. *)
Theorem construction_stores_verbatim h p d u pw (s : option string) w :
  ∃ w', __init__ h p d u pw s w = (Ok (length (objs w)), w')
        ∧ objs w' = objs w ++ [mk_PSQLConnector h p d u pw s None]
        ∧ objs w' !! length (objs w) = Some (mk_PSQLConnector h p d u pw s None)
        ∧ session_absent w' (length (objs w)) = true
        ∧ conns w' = conns w
        ∧ stdout w' = stdout w
        ∧ trace w' = trace w.
Proof.
  eexists. split; [reflexivity|]. simpl.
  assert (Hl : (objs w ++ [mk_PSQLConnector h p d u pw s None]) !! length (objs w)
               = Some (mk_PSQLConnector h p d u pw s None)).
  { rewrite lookup_app_r by lia. by rewrite Nat.sub_diag. }
  repeat split; try done.
  unfold session_absent, set_objs. cbn. by rewrite Hl.
Qed.

(** ** The fixed queries *)

(** C9, as amended. Each fixed query method sends exactly its hard-coded
    statement through the internal executor; the statement of
    [get_distinct_dishes] has the keyword [distinct] in small letters. *)
Theorem fixed_queries_sent drv self o w :
  objs w !! self = Some o →
  (get_all_dishes drv self w = _execute_query drv self all_dishes_sql w
   ∧ trace (get_all_dishes drv self w).2
     = trace w ++ [EvReadSql "SELECT * FROM restaurant.dish" (connection o)])
  ∧ (get_distinct_dishes drv self w = _execute_query drv self distinct_dishes_sql w
     ∧ trace (get_distinct_dishes drv self w).2
       = trace w ++ [EvReadSql "SELECT distinct dish_name, id, category_id FROM restaurant.dish"
                       (connection o)])
  ∧ (get_all_dish_categories drv self w
     = _execute_query drv self all_dish_categories_sql w
     ∧ trace (get_all_dish_categories drv self w).2
       = trace w ++ [EvReadSql "SELECT * FROM restaurant.dish_category" (connection o)]).
Proof.
  intros Ho.
  unfold get_all_dishes, get_distinct_dishes, get_all_dish_categories.
  repeat split; try reflexivity; by apply _execute_query_trace.
Qed.

Lemma fixed_queries_sent_witness :
  trace (get_distinct_dishes good_driver 0%nat fresh_plain).2
  = [EvReadSql "SELECT distinct dish_name, id, category_id FROM restaurant.dish" None].
Proof.
  refine (proj2 (proj1 (proj2 (fixed_queries_sent good_driver 0%nat
            (mk_PSQLConnector "localhost" 5432 "menu" "chef" "secret" None None)
            fresh_plain _)))).
  reflexivity.
Defined.

(** C9 as stated fails: the statement [get_distinct_dishes] sends is not
    the one with [DISTINCT] in capitals. *)
Lemma distinct_dishes_not_capitals :
  trace (get_distinct_dishes good_driver 0%nat fresh_plain).2
  ≠ trace fresh_plain ++ [EvReadSql distinct_dishes_sql_capitals None].
Proof. vm_compute. discriminate. Qed.

(** ** The receipt items query *)

(** The statement the method builds is the text of the source, the column
    name between two double quotes (the character of code 34). *)
Lemma receipt_items_sql (m : Z) :
  receipt_items_prefix +:+ pretty m
  = "SELECT * FROM iikoconnector.iiko_receiptitems ORDER BY "
    +:+ String (Ascii.ascii_of_nat 34) ("ItemSaleEvent_Id"
    +:+ String (Ascii.ascii_of_nat 34) (" ASC LIMIT " +:+ pretty m)).
Proof. reflexivity. Qed.

(** C3. For every integer [n], [get_all_iiko_receipt_items(first_n_rows=n)]
    sends the statement [SELECT * FROM iikoconnector.iiko_receiptitems
    ORDER BY "ItemSaleEvent_Id" ASC LIMIT m], where [m = n] when
    [n <= 50000] and [m = 50000] when [n > 50000]: 100000 gives
    [LIMIT 50000] and 10 gives [LIMIT 10]. *)
Theorem receipt_items_limit_clamped drv self o w :
  objs w !! self = Some o →
  (∀ n : Z,
     trace (get_all_iiko_receipt_items drv self (Some n) w).2
     = trace w
       ++ [EvReadSql
             ("SELECT * FROM iikoconnector.iiko_receiptitems ORDER BY "
              +:+ String (Ascii.ascii_of_nat 34) ("ItemSaleEvent_Id"
              +:+ String (Ascii.ascii_of_nat 34) (" ASC LIMIT "
              +:+ pretty (if n <=? 50000 then n else 50000))))
             (connection o)])
  ∧ trace (get_all_iiko_receipt_items drv self (Some 100000) w).2
    = trace w
      ++ [EvReadSql
            ("SELECT * FROM iikoconnector.iiko_receiptitems ORDER BY "
             +:+ String (Ascii.ascii_of_nat 34) ("ItemSaleEvent_Id"
             +:+ String (Ascii.ascii_of_nat 34) (" ASC LIMIT 50000")))
            (connection o)]
  ∧ trace (get_all_iiko_receipt_items drv self (Some 10) w).2
    = trace w
      ++ [EvReadSql
            ("SELECT * FROM iikoconnector.iiko_receiptitems ORDER BY "
             +:+ String (Ascii.ascii_of_nat 34) ("ItemSaleEvent_Id"
             +:+ String (Ascii.ascii_of_nat 34) (" ASC LIMIT 10")))
            (connection o)].
Proof.
  intros Ho.
  assert (Hn : ∀ n : Z,
     trace (get_all_iiko_receipt_items drv self (Some n) w).2
     = trace w ++ [EvReadSql (receipt_items_prefix
                              +:+ pretty (if n <=? 50000 then n else 50000))
                     (connection o)]).
  { intros n. unfold get_all_iiko_receipt_items. simpl.
    rewrite (_execute_query_trace _ _ _ _ _ Ho).
    rewrite Z.gtb_ltb, Z.ltb_antisym.
    by destruct (n <=? 50000). }
  split; [|split].
  - intros n. by rewrite Hn, receipt_items_sql.
  - by rewrite (Hn 100000).
  - by rewrite (Hn 10).
Qed.

Lemma receipt_items_limit_clamped_witness :
  trace (get_all_iiko_receipt_items good_driver 0%nat (Some 100000) fresh_plain).2
  = [EvReadSql
       ("SELECT * FROM iikoconnector.iiko_receiptitems ORDER BY "
        +:+ String (Ascii.ascii_of_nat 34) ("ItemSaleEvent_Id"
        +:+ String (Ascii.ascii_of_nat 34) (" ASC LIMIT 50000")))
       None].
Proof.
  refine (proj1 (proj2 (receipt_items_limit_clamped good_driver 0%nat
            (mk_PSQLConnector "localhost" 5432 "menu" "chef" "secret" None None)
            fresh_plain _))).
  reflexivity.
Defined.

(** C10. No lower bound: called without the argument the method uses 1000,
    and every [n <= 50000], zero and the negative ones included, goes as it
    is into the [LIMIT] clause of [SELECT * FROM
    iikoconnector.iiko_receiptitems ORDER BY "ItemSaleEvent_Id" ASC LIMIT
    n]. *)
Theorem receipt_items_no_lower_bound drv self o w :
  objs w !! self = Some o →
  trace (get_all_iiko_receipt_items drv self None w).2
  = trace w
    ++ [EvReadSql
          ("SELECT * FROM iikoconnector.iiko_receiptitems ORDER BY "
           +:+ String (Ascii.ascii_of_nat 34) ("ItemSaleEvent_Id"
           +:+ String (Ascii.ascii_of_nat 34) (" ASC LIMIT 1000")))
          (connection o)]
  ∧ (∀ n : Z, n ≤ 50000 →
       trace (get_all_iiko_receipt_items drv self (Some n) w).2
       = trace w
         ++ [EvReadSql
               ("SELECT * FROM iikoconnector.iiko_receiptitems ORDER BY "
                +:+ String (Ascii.ascii_of_nat 34) ("ItemSaleEvent_Id"
                +:+ String (Ascii.ascii_of_nat 34) (" ASC LIMIT " +:+ pretty n)))
               (connection o)])
  ∧ trace (get_all_iiko_receipt_items drv self (Some 0) w).2
    = trace w
      ++ [EvReadSql
            ("SELECT * FROM iikoconnector.iiko_receiptitems ORDER BY "
             +:+ String (Ascii.ascii_of_nat 34) ("ItemSaleEvent_Id"
             +:+ String (Ascii.ascii_of_nat 34) (" ASC LIMIT 0")))
            (connection o)]
  ∧ trace (get_all_iiko_receipt_items drv self (Some (-7)) w).2
    = trace w
      ++ [EvReadSql
            ("SELECT * FROM iikoconnector.iiko_receiptitems ORDER BY "
             +:+ String (Ascii.ascii_of_nat 34) ("ItemSaleEvent_Id"
             +:+ String (Ascii.ascii_of_nat 34) (" ASC LIMIT -7")))
            (connection o)].
Proof.
  intros Ho.
  assert (Hn : ∀ n : Z, n ≤ 50000 →
       trace (get_all_iiko_receipt_items drv self (Some n) w).2
       = trace w ++ [EvReadSql (receipt_items_prefix +:+ pretty n) (connection o)]).
  { intros n Hle. unfold get_all_iiko_receipt_items. simpl.
    rewrite (_execute_query_trace _ _ _ _ _ Ho).
    destruct (n >? 50000) eqn:Hgt; [lia | done]. }
  split; [|split; [|split]].
  - unfold get_all_iiko_receipt_items. simpl.
    by rewrite (_execute_query_trace _ _ _ _ _ Ho).
  - intros n Hle. by rewrite (Hn n Hle), receipt_items_sql.
  - by rewrite (Hn 0) by lia.
  - by rewrite (Hn (-7)) by lia.
Qed.

Lemma receipt_items_no_lower_bound_witness :
  trace (get_all_iiko_receipt_items good_driver 0%nat (Some (-7)) fresh_plain).2
  = [EvReadSql
       ("SELECT * FROM iikoconnector.iiko_receiptitems ORDER BY "
        +:+ String (Ascii.ascii_of_nat 34) ("ItemSaleEvent_Id"
        +:+ String (Ascii.ascii_of_nat 34) (" ASC LIMIT -7")))
       None].
Proof.
  refine (proj2 (proj2 (proj2 (receipt_items_no_lower_bound good_driver 0%nat
            (mk_PSQLConnector "localhost" 5432 "menu" "chef" "secret" None None)
            fresh_plain _)))).
  reflexivity.
Defined.

(** ** Disconnecting *)

(** What one call of [disconnect] does on a wrapper instance. *)
Lemma disconnect_unfold self o w :
  objs w !! self = Some o →
  disconnect self w =
    match connection o with
    | None => (Ok (), w)
    | Some c =>
        match conns w !! c with
        | None => (Raise no_attribute, w)
        | Some z =>
            if not_closed z
            then (Ok (), set_stdout (λ out, out ++ [disconnect_msg])
                           (set_conns (λ cs, <[c := 1]> cs)
                              (set_trace (λ tr, tr ++ [EvClose c]) w)))
            else (Ok (), w)
        end
    end.
Proof.
  intros Ho. unfold disconnect, conn_closed, conn_close. step_monad.
  rewrite (getattr_Some _ _ _ _ Ho). simpl.
  destruct (connection o) as [c|]; [|done].
  destruct (conns w !! c) as [z|]; [|done].
  by destruct (not_closed z).
Qed.

(** Without an open session [disconnect] changes nothing. *)
Lemma disconnect_not_open self w :
  is_instance w self = true → session_open w self = false →
  disconnect self w = (Ok (), w).
Proof.
  unfold is_instance, session_open.
  destruct (objs w !! self) as [o|] eqn:Ho; [|done].
  rewrite (disconnect_unfold _ _ _ Ho).
  destruct (connection o) as [c|]; [|done].
  destruct (conns w !! c) as [z|]; [|done].
  by intros _ ->.
Qed.

(** After [disconnect] the wrapper holds no open session, whatever the
    state it was called in. *)
Lemma disconnect_releases self w : session_open (disconnect self w).2 self = false.
Proof.
  destruct (objs w !! self) as [o|] eqn:Ho.
  - rewrite (disconnect_unfold _ _ _ Ho). unfold session_open.
    destruct (connection o) as [c|] eqn:Hc; simpl; [|by rewrite Ho, Hc].
    destruct (conns w !! c) as [z|] eqn:Hz; simpl; [|by rewrite Ho, Hc, Hz].
    destruct (not_closed z) eqn:Hn; simpl; rewrite Ho, Hc; [|by rewrite Hz].
    rewrite list_lookup_insert_eq; [done|]. by eapply lookup_lt_Some.
  - unfold disconnect. step_monad. rewrite (getattr_None _ _ _ Ho). simpl.
    unfold session_open. by rewrite Ho.
Qed.

(** [disconnect] keeps a wrapper instance a wrapper instance. *)
Lemma disconnect_is_instance self w :
  is_instance w self = true → is_instance (disconnect self w).2 self = true.
Proof.
  unfold is_instance.
  destruct (objs w !! self) as [o|] eqn:Ho; [|done].
  rewrite (disconnect_unfold _ _ _ Ho).
  destruct (connection o) as [c|] eqn:Hc; simpl; [|by rewrite Ho, Hc].
  destruct (conns w !! c) as [z|] eqn:Hz; [|done]. intros _.
  destruct (not_closed z); simpl; rewrite Ho, Hc; [|by rewrite Hz].
  rewrite list_lookup_insert_eq; [done|]. by eapply lookup_lt_Some.
Qed.

Lemma disconnect_Ok self w :
  is_instance w self = true → (disconnect self w).1 = Ok ().
Proof.
  unfold is_instance.
  destruct (objs w !! self) as [o|] eqn:Ho; [|done].
  rewrite (disconnect_unfold _ _ _ Ho).
  destruct (connection o) as [c|]; [|done].
  destruct (conns w !! c) as [z|]; [|done].
  by destruct (not_closed z).
Qed.

(** Repeating a call that changes nothing changes nothing. *)
Lemma times_S n (m : M unit) : times (S n) m = (m ;;; times n m).
Proof. done. Qed.

Lemma times_fixed n (m : M unit) w :
  m w = (Ok (), w) → times n m w = (Ok (), w).
Proof.
  intros Hm. induction n as [|n IH]; [done|].
  rewrite times_S. unfold bind. by rewrite Hm.
Qed.

(** C5. [disconnect] never raises and is idempotent: on a wrapper that
    never connected, is connected or was already disconnected, any number
    of calls in a row ends normally, a second call changes nothing, and so
    [n + 1] calls leave the state one call leaves. *)
Theorem disconnect_idempotent self w :
  is_instance w self = true →
  ∃ w1, disconnect self w = (Ok (), w1)
        ∧ disconnect self w1 = (Ok (), w1)
        ∧ times 0 (disconnect self) w = (Ok (), w)
        ∧ (∀ n, times (S n) (disconnect self) w = (Ok (), w1))
        ∧ (session_open w self = false → w1 = w)
        ∧ session_open w1 self = false.
Proof.
  intros Hi.
  pose proof (disconnect_Ok _ _ Hi) as H1.
  pose proof (disconnect_is_instance _ _ Hi) as Hi1.
  pose proof (disconnect_releases self w) as Hr.
  destruct (disconnect self w) as [r w1] eqn:Hd. simpl in H1, Hi1, Hr. subst r.
  pose proof (disconnect_not_open _ _ Hi1 Hr) as H2.
  exists w1. split; [done|]. split; [done|]. split; [done|].
  split; [|split; [|done]].
  - intros n. rewrite times_S. unfold bind. rewrite Hd. by apply times_fixed.
  - intros Hn. pose proof (disconnect_not_open _ _ Hi Hn) as H3.
    rewrite Hd in H3. by injection H3.
Qed.

Lemma disconnect_idempotent_witness :
  ∃ w1, disconnect 0%nat connected_plain = (Ok (), w1)
        ∧ disconnect 0%nat w1 = (Ok (), w1)
        ∧ times 0 (disconnect 0%nat) connected_plain = (Ok (), connected_plain)
        ∧ (∀ n, times (S n) (disconnect 0%nat) connected_plain = (Ok (), w1))
        ∧ (session_open connected_plain 0%nat = false → w1 = connected_plain)
        ∧ session_open w1 0%nat = false.
Proof. apply (disconnect_idempotent 0%nat connected_plain). reflexivity. Defined.

(** ** Connecting *)

(** What one call of [connect] does on a wrapper instance: the four places
    where it can stop, and the two ways it can succeed. *)
Lemma connect_unfold drv self o w :
  objs w !! self = Some o →
  let c := length (conns w) in
  let tr1 := trace w ++ [connect_event o] in
  let tr2 := tr1 ++ [EvCursor c] in
  let tr3 := tr2 ++ [EvExecute c (search_path_stmt (str_schema (schema o)))] in
  let w1 := opened self o w in
  connect drv self w =
    match drv_connect drv tr1 with
    | Some e => (Raise e, logged e (set_trace (λ _, tr1) w))
    | None =>
        if truthy_schema (schema o) then
          match drv_cursor drv tr2 with
          | Some e =>
              (Raise e, logged e (set_trace (λ _, tr2) (lost_on drv tr2 (Some c) w1)))
          | None =>
              match drv_execute drv tr3 with
              | Some e =>
                  (Raise e, logged e (set_trace (λ _, tr3 ++ [EvCursorClose c])
                                        (lost_on drv tr3 (Some c) w1)))
              | None =>
                  (Ok (), set_stdout (λ out, out ++ [connect_ok_msg])
                            (set_trace (λ _, tr3 ++ [EvCursorClose c]) w1))
              end
          end
        else (Ok (), set_stdout (λ out, out ++ [connect_ok_msg]) w1)
    end.
Proof.
  intros Ho c tr1 tr2 tr3 w1. subst c tr1 tr2 tr3 w1.
  assert (Hlt : (self < length (objs w))%nat) by by eapply lookup_lt_Some.
  unfold connect, connect_body, psycopg2_connect, with_cursor, conn_cursor,
    cursor_execute, fail_on, logged, opened, lost_on.
  step_monad. rewrite !(getattr_Some _ _ _ _ Ho). simpl.
  destruct (drv_connect drv _) as [e|]; simpl.
  { by destruct (isinstance e OperationalError). }
  unfold setattr_connection, getattr. simpl. rewrite Ho. simpl.
  rewrite list_lookup_insert_eq by done. simpl.
  destruct (truthy_schema (schema o)); simpl; [|done].
  rewrite list_lookup_insert_eq by done. simpl.
  destruct (drv_cursor drv _) as [e|]; simpl.
  { by destruct (drv_lost drv _), (isinstance e OperationalError). }
  rewrite list_lookup_insert_eq by done. simpl.
  destruct (drv_execute drv _) as [e|]; simpl; [|done].
  by destruct (drv_lost drv _), (isinstance e OperationalError).
Qed.

(** The observations read the instances and the connections only. *)
Lemma is_instance_ext w w' self :
  objs w' = objs w → conns w' = conns w → is_instance w' self = is_instance w self.
Proof. intros H1 H2. unfold is_instance. by rewrite H1, H2. Qed.

Lemma session_open_ext w w' self :
  objs w' = objs w → conns w' = conns w → session_open w' self = session_open w self.
Proof. intros H1 H2. unfold session_open. by rewrite H1, H2. Qed.


(** Once the driver has opened the connection, the wrapper holds it, open. *)
Lemma opened_session self o w :
  objs w !! self = Some o →
  objs (opened self o w) !! self = Some (set_connection (Some (length (conns w))) o)
  ∧ conns (opened self o w) !! length (conns w) = Some 0
  ∧ conns w !! length (conns w) = None
  ∧ session_open (opened self o w) self = true
  ∧ is_instance (opened self o w) self = true.
Proof.
  intros Ho.
  assert (H1 : objs (opened self o w) !! self
               = Some (set_connection (Some (length (conns w))) o)).
  { simpl. apply list_lookup_insert_eq. by eapply lookup_lt_Some. }
  assert (H2 : conns (opened self o w) !! length (conns w) = Some 0).
  { simpl. rewrite lookup_app_r by lia. by rewrite Nat.sub_diag. }
  split; [done|]. split; [done|]. split; [by apply lookup_ge_None_2|].
  unfold session_open, is_instance. rewrite H1.
  cbn [connection set_connection]. by rewrite H2.
Qed.

(** C7. With a default schema configured (a name that is not empty), every
    successful [connect] has, by the time it returns, sent the statement
    setting the search path to that schema on the connection it has just
    opened; with no schema configured (or an empty name) the only call made
    is the one opening the connection. *)
Theorem schema_statement_on_connect drv self o w w' :
  objs w !! self = Some o →
  connect drv self w = (Ok (), w') →
  let c := length (conns w) in
  (∀ name, schema o = Some name → name ≠ EmptyString →
     trace w' = trace w ++ [connect_event o; EvCursor c;
                            EvExecute c ("SET search_path TO " +:+ name);
                            EvCursorClose c]
     ∧ conns w !! c = None
     ∧ conns w' !! c = Some 0
     ∧ objs w' !! self = Some (set_connection (Some c) o))
  ∧ (schema o = None ∨ schema o = Some EmptyString →
     trace w' = trace w ++ [connect_event o]).
Proof.
  intros Ho Hc c. rewrite (connect_unfold _ _ _ _ Ho) in Hc.
  destruct (opened_session _ _ _ Ho) as (Hobj & Hnew & Hold & _ & _).
  destruct (drv_connect drv _) as [e|]; [done|]. split.
  - intros name Hs Hne. rewrite Hs in Hc.
    destruct name as [|a name]; [done|]. simpl in Hc.
    destruct (drv_cursor drv _) as [e|]; [done|].
    destruct (drv_execute drv _) as [e|]; [done|].
    injection Hc as <-. simpl. rewrite <- !app_assoc. simpl. by repeat split.
  - intros [Hs|Hs]; rewrite Hs in Hc; simpl in Hc; by injection Hc as <-.
Qed.

Lemma schema_statement_on_connect_witness :
  trace (connect good_driver 0%nat fresh_schema).2
  = [EvConnect "localhost" 5432 "menu" "chef" "secret"; EvCursor 0%nat;
     EvExecute 0%nat "SET search_path TO restaurant"; EvCursorClose 0%nat].
Proof.
  refine (proj1 (proj1 (schema_statement_on_connect good_driver 0%nat
            (mk_PSQLConnector "localhost" 5432 "menu" "chef" "secret"
               (Some "restaurant") None)
            fresh_schema (connect good_driver 0%nat fresh_schema).2 _ _)
            "restaurant" _ _));
    (reflexivity || discriminate).
Defined.




(** An error of the driver's connect call that is no [OperationalError]
    goes to the caller unprinted. *)
Example connect_failure_unlogged :
  (connect bad_dsn_driver 0%nat fresh_plain).1 = Raise bad_dsn
  ∧ stdout (connect bad_dsn_driver 0%nat fresh_plain).2 = [].
Proof. split; reflexivity. Qed.

(** ** The scoped session *)

Lemma __enter___unfold drv self w :
  __enter__ drv self w =
    match connect drv self w with
    | (Ok _, w') => (Ok self, w')
    | (Raise e, w') => (Raise e, w')
    end.
Proof. unfold __enter__. step_monad. by destruct (connect drv self w) as [[]]. Qed.

(** The [with] statement once [__enter__] has succeeded. *)
Lemma with_stmt_entered drv self w w1 (A : Type) (body : nat → M A) :
  __enter__ drv self w = (Ok self, w1) →
  with_stmt drv self body w =
    match body self w1 with
    | (Ok a, w2) => (disconnect self ;;; ret a) w2
    | (Raise e, w2) => (disconnect self ;;; raise e) w2
    end.
Proof. intros He. unfold with_stmt, __exit__. unfold bind at 1. by rewrite He. Qed.

(** C4. Entering the scoped session is calling [connect] and getting the
    wrapper itself back; leaving it is calling [disconnect], whatever the
    exception information passed, which closes the connection the wrapper
    holds if it is open: one call of [close] on it, the handle kept.  So a
    [with] block runs [disconnect] on the state its body leaves, whether
    the body returned or raised (the value or the exception then goes on to
    the caller), the connection held at that point is closed, and the
    wrapper holds no open connection afterwards. *)
Theorem scoped_session_protocol drv self w v w1 :
  __enter__ drv self w = (Ok v, w1) →
  v = self
  ∧ connect drv self w = (Ok (), w1)
  ∧ (∀ w0, __enter__ drv self w0 =
           match connect drv self w0 with
           | (Ok _, w') => (Ok self, w')
           | (Raise e, w') => (Raise e, w')
           end)
  ∧ (∀ exc w2, __exit__ self exc w2 = disconnect self w2)
  ∧ (∀ exc w2, session_open (__exit__ self exc w2).2 self = false)
  ∧ (∀ exc w2 o2 c z,
       objs w2 !! self = Some o2 → connection o2 = Some c →
       conns w2 !! c = Some z → not_closed z = true →
       (__exit__ self exc w2).1 = Ok ()
       ∧ trace (__exit__ self exc w2).2 = trace w2 ++ [EvClose c]
       ∧ conns (__exit__ self exc w2).2 !! c = Some 1
       ∧ objs (__exit__ self exc w2).2 = objs w2)
  ∧ (∀ (A : Type) (body : nat → M A),
       with_stmt drv self body w =
         match body self w1 with
         | (Ok a, w2) =>
             match disconnect self w2 with
             | (Ok _, w3) => (Ok a, w3)
             | (Raise e', w3) => (Raise e', w3)
             end
         | (Raise e, w2) =>
             match disconnect self w2 with
             | (Ok _, w3) => (Raise e, w3)
             | (Raise e', w3) => (Raise e', w3)
             end
         end
       ∧ session_open (with_stmt drv self body w).2 self = false
       ∧ (∀ o2 c z,
            objs (body self w1).2 !! self = Some o2 → connection o2 = Some c →
            conns (body self w1).2 !! c = Some z → not_closed z = true →
            (with_stmt drv self body w).1 = (body self w1).1
            ∧ trace (with_stmt drv self body w).2 = trace (body self w1).2 ++ [EvClose c]
            ∧ conns (with_stmt drv self body w).2 !! c = Some 1
            ∧ objs (with_stmt drv self body w).2 = objs (body self w1).2)).
Proof.
  intros He. pose proof (__enter___unfold drv self w) as Hu.
  rewrite He in Hu.
  destruct (connect drv self w) as [[[]|e] w'] eqn:Hc; [|done].
  injection Hu as -> ->.
  assert (Hclose : ∀ w2 o2 c z,
       objs w2 !! self = Some o2 → connection o2 = Some c →
       conns w2 !! c = Some z → not_closed z = true →
       (disconnect self w2).1 = Ok ()
       ∧ trace (disconnect self w2).2 = trace w2 ++ [EvClose c]
       ∧ conns (disconnect self w2).2 !! c = Some 1
       ∧ objs (disconnect self w2).2 = objs w2).
  { intros w2 o2 c z Ho Hh Hz Hn.
    rewrite (disconnect_unfold _ _ _ Ho), Hh, Hz, Hn. simpl.
    split; [done|]. split; [done|]. split; [|done].
    apply list_lookup_insert_eq. by eapply lookup_lt_Some. }
  split; [done|]. split; [done|]. split; [apply __enter___unfold|].
  split; [done|]. split; [intros; apply disconnect_releases|].
  split; [intros exc; apply Hclose|].
  intros A body. rewrite (with_stmt_entered drv self w w' A body He).
  split; [|split].
  - destruct (body self w') as [[a|e] w2]; step_monad;
      by destruct (disconnect self w2) as [[[]|e'] w3].
  - destruct (body self w') as [[a|e] w2]; step_monad;
      pose proof (disconnect_releases self w2) as Hr;
      by destruct (disconnect self w2) as [[[]|e'] w3].
  - intros o2 c z Ho Hh Hz Hn.
    destruct (Hclose _ _ _ _ Ho Hh Hz Hn) as (H1 & H2 & H3 & H4).
    destruct (body self w') as [[a|e] w2]; step_monad; simpl in *;
      destruct (disconnect self w2) as [[[]|e'] w3]; simpl in *; done.
Qed.

Lemma scoped_session_protocol_witness :
  (with_stmt rejecting_driver 0%nat failing_body fresh_plain).1
  = (failing_body 0%nat (connect rejecting_driver 0%nat fresh_plain).2).1
  ∧ trace (with_stmt rejecting_driver 0%nat failing_body fresh_plain).2
    = trace (failing_body 0%nat (connect rejecting_driver 0%nat fresh_plain).2).2
      ++ [EvClose 0%nat]
  ∧ conns (with_stmt rejecting_driver 0%nat failing_body fresh_plain).2 !! 0%nat = Some 1
  ∧ objs (with_stmt rejecting_driver 0%nat failing_body fresh_plain).2
    = objs (failing_body 0%nat (connect rejecting_driver 0%nat fresh_plain).2).2.
Proof.
  pose proof (scoped_session_protocol rejecting_driver 0%nat fresh_plain 0%nat
                (connect rejecting_driver 0%nat fresh_plain).2 eq_refl)
    as (_ & _ & _ & _ & _ & _ & H).
  destruct (H DataFrame failing_body) as (_ & _ & Hclose).
  exact (Hclose
           (mk_PSQLConnector "localhost" 5432 "menu" "chef" "secret" None (Some 0%nat))
           0%nat 0 eq_refl eq_refl eq_refl eq_refl).
Defined.

(** ** The session handle over a wrapper's life *)

Lemma break_connection_new cs : break_connection (length cs) (cs ++ [0]) = cs ++ [2].
Proof.
  unfold break_connection.
  rewrite lookup_app_r by lia. rewrite Nat.sub_diag. simpl.
  rewrite insert_app_r_alt by lia. by rewrite Nat.sub_diag.
Qed.

(** The two ways [connect] can leave the instances and the connections:
    as they were, when the driver's connect call failed; or with one more
    connection, stored in the wrapper, open unless it was lost at once. *)
Lemma connect_cases drv self o w :
  objs w !! self = Some o →
  (is_Some (drv_connect drv (trace w ++ [connect_event o]))
   ∧ objs (connect drv self w).2 = objs w
   ∧ conns (connect drv self w).2 = conns w)
  ∨ (drv_connect drv (trace w ++ [connect_event o]) = None
     ∧ objs (connect drv self w).2
       = <[self := set_connection (Some (length (conns w))) o]> (objs w)
     ∧ ∃ z, (z = 0 ∨ z = 2)
            ∧ conns (connect drv self w).2 = conns w ++ [z]
            ∧ ((connect drv self w).1 = Ok () → z = 0)).
Proof.
  intros Ho. rewrite (connect_unfold _ _ _ _ Ho).
  assert (Hl : ∀ e f w0, objs (logged e (set_trace f w0)) = objs w0
                         ∧ conns (logged e (set_trace f w0)) = conns w0).
  { intros e f w0. unfold logged. by destruct (isinstance e OperationalError). }
  assert (Hb : ∀ tr, objs (lost_on drv tr (Some (length (conns w))) (opened self o w))
                     = objs (opened self o w)
                     ∧ ∃ z, (z = 0 ∨ z = 2)
                            ∧ conns (lost_on drv tr (Some (length (conns w)))
                                       (opened self o w)) = conns w ++ [z]).
  { intros tr. unfold lost_on. destruct (drv_lost drv tr); simpl.
    - split; [done|]. exists 2. split; [by right|]. apply break_connection_new.
    - split; [done|]. exists 0. split; [by left|done]. }
  destruct (drv_connect drv _) as [e|] eqn:Hd; cbn [fst snd].
  { left. destruct (Hl e (λ _, trace w ++ [connect_event o]) w) as [-> ->]. eauto. }
  right. split; [done|].
  destruct (truthy_schema (schema o)); cbn [fst snd].
  2: { split; [done|]. exists 0. split; [by left|]. done. }
  destruct (drv_cursor drv _) as [e|]; cbn [fst snd].
  { destruct (Hl e (λ _, (trace w ++ [connect_event o]) ++ [EvCursor (length (conns w))])
                (lost_on drv ((trace w ++ [connect_event o]) ++ [EvCursor (length (conns w))])
                   (Some (length (conns w))) (opened self o w))) as [-> ->].
    destruct (Hb ((trace w ++ [connect_event o]) ++ [EvCursor (length (conns w))]))
      as (-> & z & Hz & ->).
    split; [done|]. exists z. done. }
  destruct (drv_execute drv _) as [e|]; cbn [fst snd].
  2: { split; [done|]. exists 0. split; [by left|]. done. }
  match goal with
  | |- objs (logged _ (set_trace ?f (lost_on _ ?tr _ _))) = _ ∧ _ =>
      destruct (Hl e f (lost_on drv tr (Some (length (conns w))) (opened self o w)))
        as [-> ->];
      destruct (Hb tr) as (-> & z & Hz & ->)
  end.
  split; [done|]. exists z. done.
Qed.

(** The invariant holds of a new wrapper and every method keeps it. *)
Lemma __init___handle_inv h p d u pw (s : option string) w0 :
  handle_inv (length (conns w0)) (__init__ h p d u pw s w0).2 (length (objs w0)).
Proof.
  split; [done|]. eexists. split.
  - simpl. rewrite lookup_app_r by lia. by rewrite Nat.sub_diag.
  - done.
Qed.

Lemma connect_handle_inv drv len0 self w :
  handle_inv len0 w self → handle_inv len0 (connect drv self w).2 self.
Proof.
  intros (Hlen & o & Ho & Hc).
  destruct (connect_cases drv self o w Ho) as [(_ & H1 & H2)|(_ & H1 & z & Hz & H2 & _)];
    unfold handle_inv; rewrite H1, H2.
  - split; [done|]. by exists o.
  - split; [rewrite length_app; lia|].
    exists (set_connection (Some (length (conns w))) o). split.
    { apply list_lookup_insert_eq. by eapply lookup_lt_Some. }
    intros c [= <-]. split; [done|]. exists z. split.
    + rewrite lookup_app_r by lia. by rewrite Nat.sub_diag.
    + destruct Hz as [->| ->]; auto.
Qed.

Lemma disconnect_handle_inv len0 self w :
  handle_inv len0 w self → handle_inv len0 (disconnect self w).2 self.
Proof.
  intros (Hlen & o & Ho & Hc). rewrite (disconnect_unfold _ _ _ Ho).
  destruct (connection o) as [c|] eqn:Hco; [|split; [done|]; exists o; by rewrite Hco].
  destruct (Hc c eq_refl) as (Hge & z & Hz & Hrange). rewrite Hz.
  destruct (not_closed z); cbn [fst snd].
  - split; [simpl; by rewrite length_insert|]. exists o. split; [done|].
    intros c' Hc'. rewrite Hco in Hc'. injection Hc' as <-. split; [done|].
    exists 1. split; [|auto]. simpl. apply list_lookup_insert_eq.
    by eapply lookup_lt_Some.
  - split; [done|]. exists o. split; [done|].
    intros c' Hc'. rewrite Hco in Hc'. injection Hc' as <-. eauto.
Qed.

Lemma run_query_handle_inv drv len0 self q w :
  handle_inv len0 w self → handle_inv len0 (run_query drv self q w).2 self.
Proof.
  intros (Hlen & o & Ho & Hc).
  destruct (run_query_is_execute drv self q) as [sql ->].
  destruct (_execute_query_frame drv self sql w) as [H1 [H2|(o' & c & Ho' & Hco & H2)]];
    unfold handle_inv; rewrite H1, H2.
  - split; [done|]. by exists o.
  - rewrite Ho in Ho'. injection Ho' as <-.
    split; [by rewrite break_connection_length|]. exists o. split; [done|].
    intros c' Hc'. rewrite Hco in Hc'. injection Hc' as <-.
    destruct (Hc c Hco) as (Hge & z & Hz & Hrange). split; [done|].
    exists (if not_closed z then 2 else z). split; [by apply break_connection_eq|].
    destruct (not_closed z); auto.
Qed.

Lemma run_op_handle_inv drv len0 self o w :
  handle_inv len0 w self → handle_inv len0 (run_op drv self o w) self.
Proof.
  intros Hi. destruct o as [| |c| |exc]; simpl.
  - by apply connect_handle_inv.
  - by apply disconnect_handle_inv.
  - by apply run_query_handle_inv.
  - rewrite __enter___unfold. pose proof (connect_handle_inv drv _ _ _ Hi) as H.
    by destruct (connect drv self w) as [[[]|e] w'].
  - by apply disconnect_handle_inv.
Qed.

Lemma run_ops_handle_inv drv len0 self os w :
  handle_inv len0 w self → handle_inv len0 (run_ops drv self os w) self.
Proof.
  revert w. induction os as [|o os IH]; intros w Hi; [done|].
  simpl. apply IH. by apply run_op_handle_inv.
Qed.

(** No method takes a stored handle away. *)
Lemma run_op_keeps_handle drv self o w :
  session_absent w self = false → session_absent (run_op drv self o w) self = false.
Proof.
  unfold session_absent at 1. intros Ha.
  assert (Hconnect : session_absent (connect drv self w).2 self = false).
  { destruct (objs w !! self) as [ob|] eqn:Ho.
    - destruct (connect_cases drv self ob w Ho) as [(_ & H1 & _)|(_ & H1 & _)];
        unfold session_absent; rewrite H1.
      + by rewrite Ho.
      + rewrite list_lookup_insert_eq; [done|]. by eapply lookup_lt_Some.
    - unfold connect, connect_body. step_monad. rewrite (getattr_None _ _ _ Ho).
      simpl. unfold session_absent. by rewrite Ho. }
  assert (Hdisconnect : session_absent (disconnect self w).2 self = false).
  { destruct (objs w !! self) as [ob|] eqn:Ho.
    - assert (Hob : objs (disconnect self w).2 = objs w).
      { rewrite (disconnect_unfold _ _ _ Ho).
        destruct (connection ob) as [c|]; [|done].
        destruct (conns w !! c) as [z|]; [|done]. by destruct (not_closed z). }
      unfold session_absent. rewrite Hob. by rewrite Ho.
    - unfold disconnect. step_monad. rewrite (getattr_None _ _ _ Ho).
      simpl. unfold session_absent. by rewrite Ho. }
  destruct o as [| |c| |exc]; simpl; try done.
  - destruct (run_query_is_execute drv self c) as [sql ->].
    unfold session_absent. by rewrite (proj1 (_execute_query_frame drv self sql w)).
  - rewrite __enter___unfold. by destruct (connect drv self w) as [[[]|e] w'].
Qed.

(** C6, as amended. In every state a wrapper reaches from its construction
    by any sequence of its methods, the stored session handle is absent, or
    refers to a connection opened since the construction, which is open,
    closed or lost.  A new wrapper has no handle; every method keeps this
    invariant; no method takes a stored handle away; [disconnect] on an
    open session closes the connection with one call of [close] and keeps
    the handle, so that the handle then refers to a closed connection;
    the queries, [disconnect] and [__exit__] never change the handle; and
    after [disconnect] the wrapper holds no open connection. *)
Theorem session_handle_invariant drv h p d u pw (s : option string) w0 (os : list op) :
  let self := length (objs w0) in
  let w := run_ops drv self os (__init__ h p d u pw s w0).2 in
  session_absent (__init__ h p d u pw s w0).2 self = true
  ∧ handle_inv (length (conns w0)) w self
  ∧ session_absent w self || session_open w self || session_closed w self = true
  ∧ (∀ o, handle_inv (length (conns w0)) (run_op drv self o w) self)
  ∧ (∀ o, session_absent w self = false →
          session_absent (run_op drv self o w) self = false)
  ∧ (∀ ob c, objs w !! self = Some ob → connection ob = Some c →
             conns w !! c = Some 0 →
             objs (run_op drv self OpDisconnect w) = objs w
             ∧ conns (run_op drv self OpDisconnect w) !! c = Some 1
             ∧ trace (run_op drv self OpDisconnect w) = trace w ++ [EvClose c]
             ∧ session_closed (run_op drv self OpDisconnect w) self = true)
  ∧ (∀ c exc, objs (run_op drv self (OpQuery c) w) = objs w
              ∧ objs (run_op drv self OpDisconnect w) = objs w
              ∧ objs (run_op drv self (OpExit exc) w) = objs w)
  ∧ session_open (run_op drv self OpDisconnect w) self = false.
Proof.
  intros self w.
  set (w1 := (__init__ h p d u pw s w0).2).
  assert (Hl : objs w1 !! self = Some (mk_PSQLConnector h p d u pw s None)).
  { unfold w1, self. simpl. rewrite lookup_app_r by lia. by rewrite Nat.sub_diag. }
  assert (Habs : session_absent w1 self = true).
  { unfold session_absent. by rewrite Hl. }
  assert (Hi : handle_inv (length (conns w0)) w self).
  { unfold w. apply run_ops_handle_inv, __init___handle_inv. }
  assert (Hdis : objs (disconnect self w).2 = objs w).
  { destruct Hi as (_ & ob & Ho & _). rewrite (disconnect_unfold _ _ _ Ho).
    destruct (connection ob) as [c|]; [|done].
    destruct (conns w !! c) as [z|]; [|done]. by destruct (not_closed z). }
  split; [done|]. split; [done|]. split.
  { destruct Hi as (_ & ob & Ho & Hc).
    unfold session_absent, session_open, session_closed. rewrite Ho.
    destruct (connection ob) as [c|]; [|done].
    destruct (Hc c eq_refl) as (_ & z & -> & _). by destruct (not_closed z). }
  split; [intros o; by apply run_op_handle_inv|].
  split; [intros o; apply run_op_keeps_handle|].
  split.
  { intros ob c Ho Hco Hz. simpl.
    rewrite (disconnect_unfold _ _ _ Ho), Hco, Hz. simpl.
    assert (Hlk : <[c:=1]> (conns w) !! c = Some 1).
    { apply list_lookup_insert_eq. by eapply lookup_lt_Some. }
    split; [done|]. split; [done|]. split; [done|].
    unfold session_closed. simpl. by rewrite Ho, Hco, Hlk. }
  split; [|apply disconnect_releases].
  intros c exc. simpl. split; [|done].
  destruct (run_query_is_execute drv self c) as [q ->].
  apply _execute_query_frame.
Qed.

(** C6 as stated fails: after [connect] and [disconnect] the handle is
    still stored, and the connection it refers to is closed. *)
Lemma handle_kept_after_disconnect :
  session_absent disconnected_plain 0%nat || session_open disconnected_plain 0%nat = false
  ∧ session_closed disconnected_plain 0%nat = true.
Proof. split; reflexivity. Qed.

(** ** Further properties of the executor *)

(** X1. When pandas returns a table, the executor returns that very table
    and prints nothing: the only trace of the call is the statement sent
    on the stored handle. *)
Theorem query_success_passes_table drv self o (query : string) w df :
  objs w !! self = Some o →
  drv_read_sql drv (trace w ++ [EvReadSql query (connection o)]) = inr df →
  _execute_query drv self query w
  = (Ok df, set_trace (λ tr, tr ++ [EvReadSql query (connection o)]) w)
  ∧ stdout (_execute_query drv self query w).2 = stdout w.
Proof.
  intros Ho Hdf. rewrite (_execute_query_unfold _ _ _ _ _ Ho). cbv zeta.
  by rewrite Hdf.
Qed.

Lemma query_success_passes_table_witness :
  _execute_query good_driver 0%nat "SELECT 1" fresh_plain
  = (Ok one_row, set_trace (λ tr, tr ++ [EvReadSql "SELECT 1" None]) fresh_plain).
Proof.
  refine (proj1 (query_success_passes_table good_driver 0%nat
            (mk_PSQLConnector "localhost" 5432 "menu" "chef" "secret" None None)
            "SELECT 1" fresh_plain one_row _ _));
    reflexivity.
Defined.

(** X2. What is raised while a query runs and is no [Exception] (a
    keyboard interrupt, a system exit) is not caught: it reaches the
    caller, and nothing is printed. *)
Theorem query_interrupt_propagates drv self o (query : string) w e :
  objs w !! self = Some o →
  drv_read_sql drv (trace w ++ [EvReadSql query (connection o)]) = inl e →
  isinstance e Exception = false →
  (_execute_query drv self query w).1 = Raise e
  ∧ stdout (_execute_query drv self query w).2 = stdout w.
Proof.
  intros Ho Hraise He.
  rewrite (_execute_query_unfold _ _ _ _ _ Ho). cbv zeta. rewrite Hraise, He.
  split; [done|]. cbn [snd]. by rewrite lost_on_stdout.
Qed.

Lemma query_interrupt_propagates_witness :
  (_execute_query interrupted_driver 0%nat "SELECT 1" fresh_plain).1 = Raise interrupt.
Proof.
  refine (proj1 (query_interrupt_propagates interrupted_driver 0%nat
            (mk_PSQLConnector "localhost" 5432 "menu" "chef" "secret" None None)
            "SELECT 1" fresh_plain interrupt _ _ _));
    reflexivity.
Defined.

(** X3. A query method makes one call and no other: [pd.read_sql], with
    the handle that is stored, be it absent, open or closed.  It opens no
    connection, closes none and leaves every wrapper as it is; the one
    thing that can change is the flag of the connection the query went
    through, when the query fails on a lost connection. *)
Theorem queries_leave_session_alone drv self o (c : query_call) w :
  objs w !! self = Some o →
  objs (run_query drv self c w).2 = objs w
  ∧ length (conns (run_query drv self c w).2) = length (conns w)
  ∧ (∀ c' z, conns w !! c' = Some z →
             conns (run_query drv self c w).2 !! c' = Some z
             ∨ (connection o = Some c' ∧ z = 0
                ∧ conns (run_query drv self c w).2 !! c' = Some 2))
  ∧ ∃ q, trace (run_query drv self c w).2 = trace w ++ [EvReadSql q (connection o)].
Proof.
  intros Ho. destruct (run_query_is_execute drv self c) as [q ->].
  destruct (_execute_query_frame drv self q w) as [H1 [H2|(o' & c0 & Ho' & Hc0 & H2)]];
    rewrite H2; (split; [done|]).
  - split; [done|]. split; [by auto|]. exists q. by apply _execute_query_trace.
  - rewrite Ho in Ho'. injection Ho' as <-.
    split; [apply break_connection_length|]. split.
    + intros c' z Hz. destruct (decide (c' = c0)) as [->|Hne].
      * rewrite (break_connection_eq _ _ _ Hz). unfold not_closed.
        destruct (Z.eqb_spec z 0) as [->|]; auto.
      * left. by rewrite break_connection_ne.
    + exists q. by apply _execute_query_trace.
Qed.

Lemma queries_leave_session_alone_witness :
  length (conns (run_query good_driver 1%nat CallAllDishes two_wrappers).2)
  = length (conns two_wrappers).
Proof.
  refine (proj1 (proj2 (queries_leave_session_alone good_driver 1%nat
            (mk_PSQLConnector "replica" 5433 "menu" "waiter" "hidden" None (Some 0%nat))
            CallAllDishes two_wrappers _))).
  reflexivity.
Defined.

(** ** Further properties of [connect] and [disconnect] *)

(** Whatever the schema, a successful [connect] ends in the world where
    the connection is opened and stored, up to what was printed and sent. *)
Lemma connect_Ok_opened drv self o w w' :
  objs w !! self = Some o →
  connect drv self w = (Ok (), w') →
  objs w' = objs (opened self o w) ∧ conns w' = conns (opened self o w)
  ∧ stdout w' = stdout w ++ [connect_ok_msg].
Proof.
  intros Ho Hc. rewrite (connect_unfold _ _ _ _ Ho) in Hc.
  destruct (drv_connect drv _) as [e|]; [done|].
  destruct (truthy_schema (schema o)).
  - destruct (drv_cursor drv _) as [e|]; [done|].
    destruct (drv_execute drv _) as [e|]; [done|]. by injection Hc as <-.
  - by injection Hc as <-.
Qed.

(** The session a successful [connect] leaves. *)
Lemma connect_Ok_session drv self o w w' :
  objs w !! self = Some o →
  connect drv self w = (Ok (), w') →
  conns w' = conns w ++ [0]
  ∧ objs w' !! self = Some (set_connection (Some (length (conns w))) o)
  ∧ conns w' !! length (conns w) = Some 0.
Proof.
  intros Ho Hc.
  destruct (connect_Ok_opened _ _ _ _ _ Ho Hc) as (Hob & Hcn & _).
  destruct (opened_session _ _ _ Ho) as (H1 & H2 & _).
  rewrite Hob, Hcn. done.
Qed.

(** [disconnect] on an open session. *)
Lemma disconnect_open self o c z w :
  objs w !! self = Some o →
  connection o = Some c →
  conns w !! c = Some z →
  not_closed z = true →
  disconnect self w
  = (Ok (), set_stdout (λ out, out ++ [disconnect_msg])
              (set_conns (λ cs, <[c := 1]> cs)
                 (set_trace (λ tr, tr ++ [EvClose c]) w))).
Proof. intros Ho Hc Hz Hn. by rewrite (disconnect_unfold _ _ _ Ho), Hc, Hz, Hn. Qed.

(** X4. A successful [connect] opens exactly one connection, one that did
    not exist before, stores it in the wrapper, prints the confirmation and
    leaves the wrapper with an open session. *)
Theorem connect_success_opens_session drv self o w w' :
  objs w !! self = Some o →
  connect drv self w = (Ok (), w') →
  conns w !! length (conns w) = None
  ∧ conns w' = conns w ++ [0]
  ∧ objs w' !! self = Some (set_connection (Some (length (conns w))) o)
  ∧ stdout w' = stdout w ++ [connect_ok_msg]
  ∧ session_open w' self = true.
Proof.
  intros Ho Hc.
  destruct (connect_Ok_opened _ _ _ _ _ Ho Hc) as (Hob & Hcn & Hout).
  destruct (opened_session _ _ _ Ho) as (H1 & _ & H3 & H4 & _).
  split; [done|]. split; [done|]. split; [by rewrite Hob|]. split; [done|].
  rewrite <- H4. by apply session_open_ext.
Qed.

Lemma connect_success_opens_session_witness :
  session_open (connect good_driver 0%nat fresh_schema).2 0%nat = true.
Proof.
  refine (proj2 (proj2 (proj2 (proj2 (connect_success_opens_session good_driver 0%nat
            (mk_PSQLConnector "localhost" 5432 "menu" "chef" "secret"
               (Some "restaurant") None)
            fresh_schema (connect good_driver 0%nat fresh_schema).2 _ _)))));
    reflexivity.
Defined.

(** X5. [connect] does not look at the handle it replaces: on a wrapper
    that holds a connection, a successful [connect] stores a new one and
    leaves the old one as it was, open if it was open, and a following
    [disconnect] does not close the old one either. *)
Theorem reconnect_abandons_old_connection drv self o c0 z w w' :
  objs w !! self = Some o →
  connection o = Some c0 →
  conns w !! c0 = Some z →
  connect drv self w = (Ok (), w') →
  objs w' !! self = Some (set_connection (Some (length (conns w))) o)
  ∧ length (conns w) ≠ c0
  ∧ conns w' !! c0 = Some z
  ∧ conns (disconnect self w').2 !! c0 = Some z
  ∧ conns (disconnect self w').2 !! length (conns w) = Some 1.
Proof.
  intros Ho Hc0 Hz Hc.
  destruct (connect_Ok_session _ _ _ _ _ Ho Hc) as (Hcn & Hob & Hn').
  assert (Hlt : (c0 < length (conns w))%nat) by by eapply lookup_lt_Some.
  assert (Hne : length (conns w) ≠ c0) by lia.
  assert (Hz' : conns w' !! c0 = Some z).
  { rewrite Hcn. by rewrite lookup_app_l. }
  split; [done|]. split; [done|]. split; [done|].
  rewrite (disconnect_open self _ _ 0 w' Hob eq_refl Hn' eq_refl). simpl. split.
  - by rewrite list_lookup_insert_ne.
  - apply list_lookup_insert_eq. by eapply lookup_lt_Some.
Qed.

Lemma reconnect_abandons_old_connection_witness :
  conns (disconnect 0%nat (connect good_driver 0%nat connected_plain).2).2 !! 0%nat
  = Some 0.
Proof.
  refine (proj1 (proj2 (proj2 (proj2 (reconnect_abandons_old_connection good_driver 0%nat
            (mk_PSQLConnector "localhost" 5432 "menu" "chef" "secret" None (Some 0%nat))
            0%nat 0 connected_plain (connect good_driver 0%nat connected_plain).2
            _ _ _ _)))));
    reflexivity.
Defined.

(** X6. On an open session [disconnect] closes the wrapper's own
    connection and no other, prints its message, and keeps the handle and
    every other attribute of every wrapper as they are. *)
Theorem disconnect_closes_own_connection self o c z w :
  objs w !! self = Some o →
  connection o = Some c →
  conns w !! c = Some z →
  not_closed z = true →
  (disconnect self w).1 = Ok ()
  ∧ objs (disconnect self w).2 = objs w
  ∧ conns (disconnect self w).2 !! c = Some 1
  ∧ (∀ c', c' ≠ c → conns (disconnect self w).2 !! c' = conns w !! c')
  ∧ stdout (disconnect self w).2 = stdout w ++ [disconnect_msg]
  ∧ trace (disconnect self w).2 = trace w ++ [EvClose c].
Proof.
  intros Ho Hc Hz Hn. rewrite (disconnect_unfold _ _ _ Ho), Hc, Hz, Hn. simpl.
  split; [done|]. split; [done|]. split.
  { apply list_lookup_insert_eq. by eapply lookup_lt_Some. }
  split; [|done]. intros c' Hne. by apply list_lookup_insert_ne.
Qed.

Lemma disconnect_closes_own_connection_witness :
  trace (disconnect 1%nat two_wrappers).2 = trace two_wrappers ++ [EvClose 0%nat].
Proof.
  refine (proj2 (proj2 (proj2 (proj2 (proj2 (disconnect_closes_own_connection 1%nat
            (mk_PSQLConnector "replica" 5433 "menu" "waiter" "hidden" None (Some 0%nat))
            0%nat 0 two_wrappers _ _ _ _))))));
    reflexivity.
Defined.

(** X7. When [connect] raises after the driver has opened the connection
    (the cursor or the schema statement failed), the wrapper is left with
    that connection stored.  If the connection survived the failure (the
    server refused the statement), it is open, and a call of [disconnect]
    then closes it with one call of [close]; if the failure was a lost
    connection, the driver has marked it, the wrapper holds no open session
    and [disconnect] does nothing. *)
Theorem failed_connect_then_disconnect drv self o w e w' :
  objs w !! self = Some o →
  connect drv self w = (Raise e, w') →
  drv_connect drv (trace w ++ [connect_event o]) = None →
  let c := length (conns w) in
  objs w' !! self = Some (set_connection (Some c) o)
  ∧ (conns w' !! c = Some 0 ∨ conns w' !! c = Some 2)
  ∧ (conns w' !! c = Some 0 →
     session_open w' self = true
     ∧ (disconnect self w').1 = Ok ()
     ∧ trace (disconnect self w').2 = trace w' ++ [EvClose c]
     ∧ conns (disconnect self w').2 !! c = Some 1)
  ∧ (conns w' !! c = Some 2 →
     session_open w' self = false
     ∧ disconnect self w' = (Ok (), w'))
  ∧ session_open (disconnect self w').2 self = false.
Proof.
  intros Ho Hc Hd c.
  destruct (connect_cases drv self o w Ho) as [([e0 He0] & _)|(_ & Hob & z & Hz & Hcn & _)];
    [by rewrite Hd in He0|].
  rewrite Hc in Hob, Hcn. cbn [snd] in Hob, Hcn.
  assert (H1 : objs w' !! self = Some (set_connection (Some c) o)).
  { rewrite Hob. apply list_lookup_insert_eq. by eapply lookup_lt_Some. }
  assert (H2 : conns w' !! c = Some z).
  { rewrite Hcn. unfold c. rewrite lookup_app_r by lia. by rewrite Nat.sub_diag. }
  split; [done|]. split; [rewrite H2; destruct Hz as [->| ->]; auto|].
  split; [|split; [|apply disconnect_releases]].
  - intros H0. split.
    { unfold session_open. rewrite H1. cbn [connection set_connection]. by rewrite H0. }
    rewrite (disconnect_open self _ _ 0 w' H1 eq_refl H0 eq_refl). simpl.
    split; [done|]. split; [done|].
    apply list_lookup_insert_eq. by eapply lookup_lt_Some.
  - intros H0. split.
    { unfold session_open. rewrite H1. cbn [connection set_connection]. by rewrite H0. }
    rewrite (disconnect_unfold _ _ _ H1). cbn [connection set_connection].
    by rewrite H0.
Qed.

Lemma failed_connect_then_disconnect_witness :
  session_open (connect refusing_driver 0%nat fresh_two_words).2 0%nat = true
  ∧ (disconnect 0%nat (connect refusing_driver 0%nat fresh_two_words).2).1 = Ok ()
  ∧ trace (disconnect 0%nat (connect refusing_driver 0%nat fresh_two_words).2).2
    = trace (connect refusing_driver 0%nat fresh_two_words).2 ++ [EvClose 0%nat]
  ∧ conns (disconnect 0%nat (connect refusing_driver 0%nat fresh_two_words).2).2 !! 0%nat
    = Some 1.
Proof.
  pose proof (failed_connect_then_disconnect refusing_driver 0%nat
                (mk_PSQLConnector "localhost" 5432 "menu" "chef" "secret"
                   (Some "daily menu") None)
                fresh_two_words refused
                (connect refusing_driver 0%nat fresh_two_words).2
                eq_refl eq_refl eq_refl) as (_ & _ & H & _).
  exact (H eq_refl).
Defined.

(** ** Further properties of the scoped session *)

(** X8. When [connect] fails on entry, the [with] statement ends there:
    the body does not run, [disconnect] is not called, and the caller gets
    the exception and the state [connect] left. *)
Theorem with_enter_failure drv self w e w1 :
  connect drv self w = (Raise e, w1) →
  ∀ (A : Type) (body : nat → M A), with_stmt drv self body w = (Raise e, w1).
Proof.
  intros Hc A body. unfold with_stmt. unfold bind at 1.
  by rewrite __enter___unfold, Hc.
Qed.

Lemma with_enter_failure_witness :
  with_stmt lossy_driver 0%nat failing_body fresh_schema
  = (Raise lost, (connect lossy_driver 0%nat fresh_schema).2).
Proof.
  refine (with_enter_failure lossy_driver 0%nat fresh_schema lost
            (connect lossy_driver 0%nat fresh_schema).2 _ DataFrame failing_body).
  reflexivity.
Defined.

(** X9. The scoped session hides nothing: when [connect] succeeds and the
    body leaves the wrapper an instance, the [with] statement ends the way
    the body ended, with its value or with its exception, in the state
    [disconnect] makes of the one the body left. *)
Theorem with_keeps_body_outcome drv self w w1 (A : Type) (body : nat → M A) :
  connect drv self w = (Ok (), w1) →
  is_instance (body self w1).2 self = true →
  (with_stmt drv self body w).1 = (body self w1).1
  ∧ (with_stmt drv self body w).2 = (disconnect self (body self w1).2).2.
Proof.
  intros Hc Hi.
  assert (He : __enter__ drv self w = (Ok self, w1)).
  { by rewrite __enter___unfold, Hc. }
  rewrite (with_stmt_entered drv self w w1 A body He).
  pose proof (disconnect_Ok _ _ Hi) as Hd.
  destruct (body self w1) as [[a|e] w2]; simpl in Hd; step_monad;
    by destruct (disconnect self w2) as [[[]|e'] w3].
Qed.

Lemma with_keeps_body_outcome_witness :
  (with_stmt rejecting_driver 0%nat failing_body fresh_plain).1
  = Raise (mk_exn TypeError "no rows").
Proof.
  refine (proj1 (with_keeps_body_outcome rejecting_driver 0%nat fresh_plain
            (connect rejecting_driver 0%nat fresh_plain).2 DataFrame failing_body _ _));
    reflexivity.
Defined.

(** A query on an open session: the handle stays, one call is made, and
    the connection stays open unless the query fails on a lost connection. *)
Lemma _execute_query_on_open drv self o c q w :
  objs w !! self = Some o →
  connection o = Some c →
  conns w !! c = Some 0 →
  let tr := trace w ++ [EvReadSql q (Some c)] in
  let broke := match drv_read_sql drv tr with
               | inl _ => drv_lost drv tr
               | inr _ => false
               end in
  objs (_execute_query drv self q w).2 = objs w
  ∧ trace (_execute_query drv self q w).2 = tr
  ∧ conns (_execute_query drv self q w).2 !! c = Some (if broke then 2 else 0).
Proof.
  intros Ho Hc Hz tr broke. subst tr broke.
  rewrite (_execute_query_unfold _ _ _ _ _ Ho), Hc. cbv zeta.
  destruct (drv_read_sql drv _) as [e|df]; [|done].
  assert (H : ∀ w0, conns w0 = conns w →
            objs (lost_on drv (trace w ++ [EvReadSql q (Some c)]) (Some c) w0) = objs w0
            ∧ trace (lost_on drv (trace w ++ [EvReadSql q (Some c)]) (Some c) w0)
              = trace w0
            ∧ conns (lost_on drv (trace w ++ [EvReadSql q (Some c)]) (Some c) w0) !! c
              = Some (if drv_lost drv (trace w ++ [EvReadSql q (Some c)])
                      then 2 else 0)).
  { intros w0 Hw0. unfold lost_on.
    destruct (drv_lost drv _); simpl; [|by rewrite Hw0].
    split; [done|]. split; [done|]. rewrite Hw0.
    by rewrite (break_connection_eq _ _ _ Hz). }
  destruct (H (set_trace (λ tr, tr ++ [EvReadSql q (Some c)]) w) eq_refl)
    as (H1 & H2 & H3).
  destruct (isinstance e Exception);
    cbn [snd objs conns trace stdout set_stdout]; by rewrite H1, H2, H3.
Qed.

(** X10. A [with] block around one query makes, after the calls of
    [connect], one call of [pd.read_sql] on the connection just opened and
    then closes that connection with one call of [close]; unless the query
    failed on a lost connection, which the driver has then marked, and
    [disconnect] makes no call.  Either way the stored connection is not
    open afterwards. *)
Theorem with_one_query_trace drv self o w w1 (query : string) :
  objs w !! self = Some o →
  connect drv self w = (Ok (), w1) →
  let c := length (conns w) in
  let tr := trace w1 ++ [EvReadSql query (Some c)] in
  let broke := match drv_read_sql drv tr with
               | inl _ => drv_lost drv tr
               | inr _ => false
               end in
  let w' := (with_stmt drv self (λ v, execute_query drv v query) w).2 in
  trace w' = tr ++ (if broke then [] else [EvClose c])
  ∧ conns w' !! c = Some (if broke then 2 else 1)
  ∧ session_closed w' self = true.
Proof.
  intros Ho Hc c tr broke w'.
  destruct (connect_Ok_session _ _ _ _ _ Ho Hc) as (_ & Hob & Hopen).
  fold c in Hob, Hopen.
  assert (He : __enter__ drv self w = (Ok self, w1)).
  { by rewrite __enter___unfold, Hc. }
  destruct (_execute_query_on_open drv self _ c query w1 Hob eq_refl Hopen)
    as (Hf1 & Hf2 & Hf3).
  fold tr broke in Hf2, Hf3.
  assert (Hw : w' = (disconnect self (_execute_query drv self query w1).2).2).
  { unfold w'. rewrite (with_stmt_entered drv self w w1 _ _ He).
    unfold execute_query.
    destruct (_execute_query drv self query w1) as [[a|e] w3]; step_monad;
      by destruct (disconnect self w3) as [[[]|e'] w4]. }
  rewrite Hw. clear Hw w'.
  set (w2 := (_execute_query drv self query w1).2) in *. clearbody w2.
  assert (Hob2 : objs w2 !! self = Some (set_connection (Some c) o))
    by by rewrite Hf1.
  rewrite (disconnect_unfold _ _ _ Hob2). cbn [connection set_connection].
  rewrite Hf3. unfold session_closed. destruct broke; simpl.
  - rewrite Hob2. cbn [connection set_connection]. rewrite Hf3, Hf2. simpl.
    by rewrite app_nil_r.
  - rewrite Hob2. cbn [connection set_connection].
    rewrite list_lookup_insert_eq by by eapply lookup_lt_Some.
    by rewrite Hf2.
Qed.

Lemma with_one_query_trace_witness :
  trace (with_stmt good_driver 0%nat (λ v, execute_query good_driver v "SELECT 1")
           fresh_plain).2
  = (trace (connect good_driver 0%nat fresh_plain).2
     ++ [EvReadSql "SELECT 1" (Some 0%nat)]) ++ [EvClose 0%nat].
Proof.
  refine (proj1 (with_one_query_trace good_driver 0%nat
            (mk_PSQLConnector "localhost" 5432 "menu" "chef" "secret" None None)
            fresh_plain (connect good_driver 0%nat fresh_plain).2 "SELECT 1" _ _));
    reflexivity.
Defined.

(** ** Several wrappers *)

Lemma connect_dangling drv self w :
  objs w !! self = None → connect drv self w = (Raise no_attribute, w).
Proof.
  intros Ho. unfold connect, connect_body. step_monad.
  by rewrite (getattr_None _ _ _ Ho).
Qed.

Lemma disconnect_dangling self w :
  objs w !! self = None → disconnect self w = (Raise no_attribute, w).
Proof.
  intros Ho. unfold disconnect. step_monad. by rewrite (getattr_None _ _ _ Ho).
Qed.

(** [disconnect] changes at most the connection the wrapper holds. *)
Lemma disconnect_frame self w c z :
  conns w !! c = Some z →
  (∀ o, objs w !! self = Some o → connection o ≠ Some c) →
  objs (disconnect self w).2 = objs w ∧ conns (disconnect self w).2 !! c = Some z.
Proof.
  intros Hz Hne. destruct (objs w !! self) as [o|] eqn:Ho.
  - rewrite (disconnect_unfold _ _ _ Ho).
    destruct (connection o) as [c0|] eqn:Hc0; [|done].
    destruct (conns w !! c0) as [z0|]; [|done].
    destruct (not_closed z0); [|done]. simpl. split; [done|].
    rewrite list_lookup_insert_ne; [done|].
    intros ->. by apply (Hne o).
  - by rewrite (disconnect_dangling _ _ Ho).
Qed.

(** One method call on [self]: the other wrappers stay as they are, and so
    does a connection [self] does not hold, which [self] still does not
    hold afterwards. *)
Lemma run_op_frame drv self other op1 w c z :
  other ≠ self →
  conns w !! c = Some z →
  (∀ o, objs w !! self = Some o → connection o ≠ Some c) →
  objs (run_op drv self op1 w) !! other = objs w !! other
  ∧ conns (run_op drv self op1 w) !! c = Some z
  ∧ (∀ o, objs (run_op drv self op1 w) !! self = Some o → connection o ≠ Some c).
Proof.
  intros Hoth Hz Hne.
  assert (Hlt : (c < length (conns w))%nat) by by eapply lookup_lt_Some.
  assert (Hconnect :
    objs (connect drv self w).2 !! other = objs w !! other
    ∧ conns (connect drv self w).2 !! c = Some z
    ∧ (∀ o, objs (connect drv self w).2 !! self = Some o → connection o ≠ Some c)).
  { destruct (objs w !! self) as [o|] eqn:Ho.
    - destruct (connect_cases drv self o w Ho)
        as [(_ & H1 & H2)|(_ & H1 & z0 & _ & H2 & _)]; rewrite H1, H2.
      + split; [done|]. split; [done|]. intros o'. rewrite Ho. intros [= <-].
        by apply Hne.
      + split; [by apply list_lookup_insert_ne|].
        split; [by rewrite lookup_app_l|].
        intros o'. rewrite list_lookup_insert_eq by by eapply lookup_lt_Some.
        intros [= <-]. simpl. intros [= Heq]. lia.
    - rewrite (connect_dangling _ _ _ Ho). simpl. split; [done|]. split; [done|].
      intros o'. by rewrite Ho. }
  assert (Hdisconnect :
    objs (disconnect self w).2 !! other = objs w !! other
    ∧ conns (disconnect self w).2 !! c = Some z
    ∧ (∀ o, objs (disconnect self w).2 !! self = Some o → connection o ≠ Some c)).
  { destruct (disconnect_frame self w c z Hz Hne) as [H1 H2].
    rewrite H1. done. }
  destruct op1 as [| |q| |exc]; simpl; try done.
  - destruct (run_query_is_execute drv self q) as [sql ->].
    destruct (_execute_query_frame drv self sql w)
      as [H1 [H2|(o' & c0 & Ho' & Hc0 & H2)]]; rewrite H1, H2; [done|].
    split; [done|]. split; [|done].
    rewrite break_connection_ne; [done|]. intros ->. by apply (Hne o').
  - rewrite __enter___unfold.
    by destruct (connect drv self w) as [[[]|e] w'].
Qed.

(** X11. Wrappers do not interfere: whatever methods are called on one
    wrapper, in whatever order and with whatever outcome, every other
    wrapper keeps its attributes, its handle among them, and a connection
    the first wrapper does not hold is neither closed nor changed. *)
Theorem other_wrappers_untouched drv self other (os : list op) w c z :
  other ≠ self →
  conns w !! c = Some z →
  (∀ o, objs w !! self = Some o → connection o ≠ Some c) →
  objs (run_ops drv self os w) !! other = objs w !! other
  ∧ conns (run_ops drv self os w) !! c = Some z.
Proof.
  revert w. induction os as [|op1 os IH]; intros w Hoth Hz Hne; [done|].
  destruct (run_op_frame drv self other op1 w c z Hoth Hz Hne) as (H1 & H2 & H3).
  destruct (IH (run_op drv self op1 w) Hoth H2 H3) as [H4 H5].
  simpl. split; [by rewrite H4|done].
Qed.

Lemma other_wrappers_untouched_witness :
  conns (run_ops good_driver 0%nat [OpConnect; OpQuery CallAllDishes; OpDisconnect]
           two_wrappers) !! 0%nat
  = Some 0.
Proof.
  refine (proj2 (other_wrappers_untouched good_driver 0%nat 1%nat
            [OpConnect; OpQuery CallAllDishes; OpDisconnect] two_wrappers 0%nat 0
            _ _ _)).
  - discriminate.
  - reflexivity.
  - intros o [= <-]. discriminate.
Defined.

(** ** The calls of [connect] *)

(** X12. Whatever its outcome, [connect] calls the driver's connect once,
    first, with the host, port, database name, user and password stored at
    construction; every call it makes after that goes through a cursor of
    the connection just opened, and there are none when the driver's
    connect call failed. *)
Theorem connect_calls drv self o w :
  objs w !! self = Some o →
  ∃ rest,
    trace (connect drv self w).2
    = trace w ++ EvConnect (host o) (port o) (db_name o) (username o) (password o) :: rest
    ∧ forallb (on_cursor_of (length (conns w))) rest = true
    ∧ (is_Some (drv_connect drv (trace w ++ [connect_event o])) → rest = []).
Proof.
  intros Ho. rewrite (connect_unfold _ _ _ _ Ho).
  assert (Hl : ∀ e w0, trace (logged e w0) = trace w0).
  { intros e w0. unfold logged. by destruct (isinstance e OperationalError). }
  set (c := length (conns w)).
  assert (Hc : Nat.eqb c c = true) by apply Nat.eqb_refl.
  destruct (drv_connect drv _) as [e|]; simpl.
  { exists []. rewrite Hl. done. }
  destruct (truthy_schema (schema o)); simpl.
  2: { exists []. split; [done|]. split; [done|]. by intros [? [=]]. }
  destruct (drv_cursor drv _) as [e|]; simpl.
  { exists [EvCursor c]. rewrite Hl. simpl. rewrite <- app_assoc, Hc.
    split; [done|]. split; [done|]. by intros [? [=]]. }
  exists [EvCursor c; EvExecute c (search_path_stmt (str_schema (schema o)));
          EvCursorClose c].
  destruct (drv_execute drv _) as [e|]; simpl; rewrite ?Hl; simpl;
    rewrite <- !app_assoc, Hc; (split; [done|]; split; [done|]; by intros [? [=]]).
Qed.

Lemma connect_calls_witness :
  ∃ rest,
    trace (connect lossy_driver 0%nat fresh_schema).2
    = trace fresh_schema ++ EvConnect "localhost" 5432 "menu" "chef" "secret" :: rest
    ∧ forallb (on_cursor_of (length (conns fresh_schema))) rest = true
    ∧ (is_Some (drv_connect lossy_driver
                  (trace fresh_schema
                   ++ [connect_event (mk_PSQLConnector "localhost" 5432 "menu" "chef"
                                        "secret" (Some "restaurant") None)])) →
       rest = []).
Proof.
  refine (connect_calls lossy_driver 0%nat
            (mk_PSQLConnector "localhost" 5432 "menu" "chef" "secret"
               (Some "restaurant") None)
            fresh_schema _).
  reflexivity.
Defined.
